(** * Yale Doorman lock platform: a shallow embedding of
    [custom_components/doorman/lock.py]

    The Python module polls a vendor cloud API and keeps a lock entity up to
    date.  Its methods mutate the entity ([self]), talk to the network, read
    the clock and write to a logger, and any of them may stop with a Python
    exception.  The embedding threads all of that explicitly:

    - a state-and-exception monad [M S A := S -> result A * S]; the state
      survives a raised exception, as the mutations of a Python object do;
    - the entity is the record [Doorman]; the outside world is the record
      [World], which counts clock readings and records, in the order they
      happened, the requests sent, the log records and the states handed to
      [async_write_ha_state];
    - what the outside world answers is an [Oracle]: the [k]-th reading of
      the clock and the reply to the request sent after [k] earlier ones.

    Modelling conventions.  A JSON object is a record whose fields are
    [option]s: [None] is what [dict.get] returns for an absent key, and what
    makes [dict[key]] raise [KeyError].  Field values that are present are
    taken to be of the JSON type the vendor sends (strings; integers for
    [expires_in]; a string or an integer for [report_id]).  Time stamps are
    counted in whole seconds. *)

From Stdlib Require Import ZArith List String Bool Lia.
Import ListNotations.

Local Open Scope string_scope.
Local Open Scope Z_scope.

(** ** Python values and exceptions *)

Inductive exn : Type :=
| KeyError (key : option string)      (* d[key], key absent *)
| UnboundLocalError (var : string)    (* local variable read before assignment *)
| AttributeError                      (* None.get(...) *)
| TypeError                           (* iterating or indexing None *)
| IndexError                          (* [][0] *)
| JSONDecodeError                     (* response.json() on a body that is not JSON *)
| RequestException.                   (* requests: timeout, connection error *)

Inductive result (A : Type) : Type :=
| Ok (a : A)
| Raise (e : exn).
Arguments Ok {A} a.
Arguments Raise {A} e.

(** A report identifier as JSON carries it. *)
Inductive scalar : Type :=
| SInt (z : Z)
| SStr (s : string).

Definition scalar_eqb (a b : scalar) : bool :=
  match a, b with
  | SInt x, SInt y => Z.eqb x y
  | SStr x, SStr y => String.eqb x y
  | _, _ => false
  end.

Definition option_eqb {A : Type} (eqb : A -> A -> bool) (a b : option A) : bool :=
  match a, b with
  | Some x, Some y => eqb x y
  | None, None => true
  | _, _ => false
  end.

(** [x in xs] on a Python list. *)
Definition py_in {A : Type} (eqb : A -> A -> bool) (x : A) (xs : list A) : bool :=
  existsb (eqb x) xs.

(** A Python dict with string keys and string values, in insertion order. *)
Definition dict : Type := list (string * string).

Fixpoint dict_get (d : dict) (k : string) : option string :=
  match d with
  | [] => None
  | (k', v) :: d' => if String.eqb k k' then Some v else dict_get d' k
  end.

(** [key in d], where [key] may be [None]. *)
Definition dict_contains (d : dict) (key : option string) : bool :=
  match key with
  | Some k => match dict_get d k with Some _ => true | None => false end
  | None => false
  end.

(** [d[key]]. *)
Definition dict_getitem (d : dict) (key : option string) : result string :=
  match key with
  | Some k => match dict_get d k with Some v => Ok v | None => Raise (KeyError key) end
  | None => Raise (KeyError None)
  end.

(** ** Module constants *)

Definition LOCK_STATE : string := "device_status.lock".
Definition UNLOCK_STATE : string := "device_status.unlock".
Definition FAILED_STATE : string := "failed".

Definition STATE_ENUM : dict :=
  [ ("1816", "device_status.lock");    (* Locked after a failed lock *)
    ("1815", "device_status.unlock");  (* Failed to lock *)
    ("1807", "device_status.lock");    (* Auto-relocked *)
    ("1801", "device_status.unlock");  (* Unlock from inside *)
    ("1802", "device_status.unlock")   (* Unlock from outside, token or keypad *)
  ].

Definition NON_LOCK_EVENT : dict := [ ("1602", "device_status.lock") ].  (* Periodic test *)

(** ** JSON payloads *)

(** The token endpoint's answer, and [login_data]: the same with the time of
    the login stamped on it under ["loggedin"]. *)
Record TokenJson : Type := {
  tj_access_token : option string;
  tj_expires_in : option Z
}.

Record LoginData : Type := {
  access_token : option string;
  expires_in : option Z;
  loggedin : Z
}.

(** One entry of ["device_status"] in the status-cycle answer. *)
Record Device : Type := {
  dev_device_id : option string;
  dev_name : option string;
  dev_status_open : option (list string)
}.

Record StateJson : Type := {
  sj_message : option string;
  sj_data : option (option (list Device))   (* data, then data["device_status"] *)
}.

(** One record of the event report. *)
Record Event : Type := {
  ev_type : option string;
  ev_report_id : option scalar;
  ev_name : option string;
  ev_user : option string;
  ev_event_type : option string
}.

Record HistoryJson : Type := {
  hj_message : option string;
  hj_data : option (list Event)
}.

(** What [requests.get] / [requests.post] comes back with. *)
Inductive http (B : Type) : Type :=
| NoResponse                                            (* the call raised *)
| Response (status_code : Z) (text : string) (json : option B).
Arguments NoResponse {B}.
Arguments Response {B} status_code text json.

(** ** The outside world *)

Inductive request : Type :=
| PostLogin (username password initial_token : string)
| GetState (bearer : string)
| GetHistory (bearer : string).

Inductive log_record : Type :=
| InfoTryingLogin                      (* "Trying to log in to Yale.." *)
| InfoLoggedIn                         (* "Logged in to Yale" *)
| InfoTokenExpired                     (* "Token expired. Logging in to Yale" *)
| InfoSettingState (state : string)    (* "Setting state to {state}" *)
| InfoParsingEvent (report_id : option scalar) (state : string)
| ErrorStatusNotOK (status : string)   (* "Status is not OK!: {status}" *)
| ErrorRetrieving (text : string).     (* "Error retrieving doorman lock status during update: ..." *)

Record World : Type := {
  clock_reads : nat;
  sent : list request;
  log : list log_record;
  written : list (option string)
}.

Record Oracle : Type := {
  now : nat -> Z;
  login_reply : nat -> http TokenJson;
  state_reply : nat -> http StateJson;
  history_reply : nat -> http HistoryJson
}.

(** ** The entity *)

Record Doorman : Type := {
  _state : option string;
  username : string;
  password : string;
  login_data : LoginData;
  device_id : option string;
  initial_token : string;
  _name : option string;
  report_ids : list (option scalar)
}.

Record Sys : Type := {
  self : Doorman;
  io : World
}.

Definition set_state (st : option string) (d : Doorman) : Doorman :=
  {| _state := st; username := username d; password := password d;
     login_data := login_data d; device_id := device_id d;
     initial_token := initial_token d; _name := _name d;
     report_ids := report_ids d |}.

Definition set_login_data (ld : LoginData) (d : Doorman) : Doorman :=
  {| _state := _state d; username := username d; password := password d;
     login_data := ld; device_id := device_id d;
     initial_token := initial_token d; _name := _name d;
     report_ids := report_ids d |}.

Definition append_report_id (rid : option scalar) (d : Doorman) : Doorman :=
  {| _state := _state d; username := username d; password := password d;
     login_data := login_data d; device_id := device_id d;
     initial_token := initial_token d; _name := _name d;
     report_ids := report_ids d ++ [rid] |}.

Definition tick_clock (w : World) : World :=
  {| clock_reads := S (clock_reads w); sent := sent w; log := log w; written := written w |}.

Definition add_sent (r : request) (w : World) : World :=
  {| clock_reads := clock_reads w; sent := sent w ++ [r]; log := log w; written := written w |}.

Definition add_log (l : log_record) (w : World) : World :=
  {| clock_reads := clock_reads w; sent := sent w; log := log w ++ [l]; written := written w |}.

Definition add_written (st : option string) (w : World) : World :=
  {| clock_reads := clock_reads w; sent := sent w; log := log w; written := written w ++ [st] |}.

Definition on_self (f : Doorman -> Doorman) (s : Sys) : Sys :=
  {| self := f (self s); io := io s |}.

Definition on_io (f : World -> World) (s : Sys) : Sys :=
  {| self := self s; io := f (io s) |}.

(** ** The monad *)

Definition M (S A : Type) : Type := S -> result A * S.

Definition ret {S A : Type} (a : A) : M S A := fun s => (Ok a, s).

Definition raise {S A : Type} (e : exn) : M S A := fun s => (Raise e, s).

Definition bind {S A B : Type} (c : M S A) (k : A -> M S B) : M S B :=
  fun s =>
    match c s with
    | (Ok a, s') => k a s'
    | (Raise e, s') => (Raise e, s')
    end.

Definition gets {S A : Type} (f : S -> A) : M S A := fun s => (Ok (f s), s).

Definition modify {S : Type} (f : S -> S) : M S unit := fun s => (Ok tt, f s).

Definition of_result {S A : Type} (r : result A) : M S A := fun s => (r, s).

(** Runs a computation on the world inside the whole system. *)
Definition lift {A : Type} (c : M World A) : M Sys A :=
  fun s => let (r, w) := c (io s) in (r, {| self := self s; io := w |}).

Declare Scope monad_scope.
Delimit Scope monad_scope with monad.
Notation "x <- c ;; k" := (bind c (fun x => k))
  (at level 61, c at next level, right associativity) : monad_scope.
Notation "c ;; k" := (bind c (fun _ => k))
  (at level 61, right associativity) : monad_scope.
Local Open Scope monad_scope.

(** [d[key]] on a JSON object. *)
Definition getitem {S A : Type} (key : string) (v : option A) : M S A :=
  match v with
  | Some a => ret a
  | None => raise (KeyError (Some key))
  end.

Definition log_io (l : log_record) : M World unit := modify (add_log l).

Definition log_sys (l : log_record) : M Sys unit := modify (on_io (add_log l)).

(** ** The program *)

Section Program.

Variable net : Oracle.

(** [datetime.timestamp(datetime.now())] *)
Definition datetime_now : M World Z :=
  fun w => (Ok (now net (clock_reads w)), tick_clock w).

(** Sends a request; the oracle's reply is looked up at the number of
    requests sent before this one. *)
Definition send {B : Type} (reply : Oracle -> nat -> http B) (r : request) : M World (http B) :=
  fun w => (Ok (reply net (List.length (sent w))), add_sent r w).

(** The raising half of [requests.get] / [requests.post]. *)
Definition received {S B : Type} (r : http B) : M S (Z * string * option B) :=
  match r with
  | NoResponse => raise RequestException
  | Response code text body => ret (code, text, body)
  end.

(** [response.json()] *)
Definition json_of {S B : Type} (body : option B) : M S B :=
  match body with
  | Some b => ret b
  | None => raise JSONDecodeError
  end.

(** [login(username, password, initial_token)], lines 39-49. *)
Definition login (user pass token : string) : M World LoginData :=
  log_io InfoTryingLogin ;;
  r <- send login_reply (PostLogin user pass token) ;;
  res <- received r ;;
  login_data <- json_of (snd res) ;;
  timestamp <- datetime_now ;;
  log_io InfoLoggedIn ;;
  ret {| access_token := tj_access_token login_data;
         expires_in := tj_expires_in login_data;
         loggedin := timestamp |}.

(** [Doorman.__init__], lines 88-97. *)
Definition Doorman_init (state : option string) (ld : LoginData)
    (user pass : string) (name device : option string) (token : string) : Doorman :=
  {| _state := state; username := user; password := pass; login_data := ld;
     device_id := device; initial_token := token; _name := name;
     report_ids := [] |}.

(** [Doorman.name], [Doorman.is_locked], lines 99-107. *)
Definition name (d : Doorman) : option string := _name d.

Definition is_locked (d : Doorman) : bool :=
  option_eqb String.eqb (_state d) (Some LOCK_STATE).

(** [Doorman.lock] and [Doorman.unlock], lines 109-115: the body is the
    docstring alone. *)
Definition lock : M Sys unit := ret tt.

Definition unlock : M Sys unit := ret tt.

(** [Doorman.validate_access_token], lines 141-148. *)
Definition validate_access_token : M Sys unit :=
  timestamp <- lift datetime_now ;;
  d <- gets self ;;
  expires <- getitem "expires_in" (expires_in (login_data d)) ;;
  if loggedin (login_data d) + expires <=? timestamp - 1000 then
    log_sys InfoTokenExpired ;;
    ld <- lift (login (username d) (password d) (initial_token d)) ;;
    modify (on_self (set_login_data ld))
  else ret tt.

(** The loop of [get_state], lines 128-135. *)
Fixpoint get_state_loop (devices : list Device) : M Sys (option string) :=
  match devices with
  | [] => ret None
  | device :: rest =>
      state <- match dev_status_open device with
               | None => raise TypeError
               | Some [] => raise IndexError
               | Some (st :: _) => ret st
               end ;;
      d <- gets self ;;
      if option_eqb String.eqb (dev_name device) (_name d) then
        (if negb (String.eqb state LOCK_STATE) && negb (String.eqb state UNLOCK_STATE)
         then log_sys (InfoSettingState state) else ret tt) ;;
        ret (Some state)
      else get_state_loop rest
  end.

(** [Doorman.get_state], lines 117-139.  [None] is the value of a call that
    runs off the end of the function. *)
Definition get_state : M Sys (option string) :=
  validate_access_token ;;
  d <- gets self ;;
  token <- getitem "access_token" (access_token (login_data d)) ;;
  r <- lift (send state_reply (GetState token)) ;;
  response <- received r ;;
  let '(status_code, text, body) := response in
  if status_code =? 200 then
    data <- json_of body ;;
    status <- getitem "message" (sj_message data) ;;
    if String.eqb status "OK!" then
      inner <- match sj_data data with
               | None => raise AttributeError
               | Some x => ret x
               end ;;
      devices <- match inner with
                 | None => raise TypeError
                 | Some ds => ret ds
                 end ;;
      get_state_loop devices
    else
      log_sys (ErrorStatusNotOK status) ;;
      ret None
  else
    log_sys (ErrorRetrieving text) ;;
    ret None.

(** The body of the loop of [get_state_history], lines 166-178, on the
    list [states] built so far. *)
Definition get_state_history_event (event : Event) (states : list string)
  : M Sys (list string) :=
  if option_eqb String.eqb (ev_type event) (Some "device_type.door_lock") then
    let report_id := ev_report_id event in
    d <- gets self ;;
    if negb (py_in (option_eqb scalar_eqb) report_id (report_ids d)) then
      let event_type := ev_event_type event in
      modify (on_self (append_report_id report_id)) ;;
      if dict_contains NON_LOCK_EVENT event_type then ret states
      else
        state <- of_result (dict_getitem STATE_ENUM event_type) ;;
        log_sys (InfoParsingEvent report_id state) ;;
        ret (states ++ [state])%list
    else ret states
  else ret states.

(** The loop itself, line 165. *)
Fixpoint get_state_history_loop (events : list Event) (states : list string)
  : M Sys (list string) :=
  match events with
  | [] => ret states
  | event :: rest =>
      states' <- get_state_history_event event states ;;
      get_state_history_loop rest states'
  end.

(** [Doorman.get_state_history], lines 150-184.  [states] is assigned on
    line 163, inside the branch of line 160; line 184 reads it on every
    path. *)
Definition get_state_history : M Sys (list string) :=
  validate_access_token ;;
  d <- gets self ;;
  token <- getitem "access_token" (access_token (login_data d)) ;;
  r <- lift (send history_reply (GetHistory token)) ;;
  response <- received r ;;
  let '(status_code, text, body) := response in
  if status_code =? 200 then
    data <- json_of body ;;
    status <- getitem "message" (hj_message data) ;;
    if String.eqb status "OK!" then
      events <- match hj_data data with
                | None => raise TypeError
                | Some evs => ret evs
                end ;;
      get_state_history_loop events []
    else
      log_sys (ErrorStatusNotOK status) ;;
      ret []
  else
    log_sys (ErrorRetrieving text) ;;
    raise (UnboundLocalError "states").

(** [self.async_write_ha_state()]: the host is handed the current state. *)
Definition async_write_ha_state : M Sys unit :=
  fun s => (Ok tt, on_io (add_written (_state (self s))) s).

(** The loop of [update], lines 189-191. *)
Fixpoint update_loop (states : list string) : M Sys unit :=
  match states with
  | [] => ret tt
  | state :: rest =>
      modify (on_self (set_state (Some state))) ;;
      async_write_ha_state ;;
      update_loop rest
  end.

(** [Doorman.update], lines 186-192. *)
Definition update : M Sys unit :=
  states <- get_state_history ;;
  update_loop states ;;
  state <- get_state ;;
  modify (on_self (set_state state)).

End Program.

(** ** Setting the platform up

    [async_setup_platform] logs in, fetches the status once and hands one
    entity per device to the host through [add_entities].  The entities
    handed over so far survive an exception, so they are part of the state.
    The records this function logs are kept in a list of their own; the two
    records of [login] come before all of them.  The login data is shared by
    the entities, and no code mutates it in place: [validate_access_token]
    rebinds the attribute. *)

(** The configuration entry, as [PLATFORM_SCHEMA] validates it: four
    required strings. *)
Record Config : Type := {
  CONF_ACCESS_TOKEN : string;
  CONF_USERNAME : string;
  CONF_PASSWORD : string;
  CONF_ID : string
}.

Inductive setup_record : Type :=
| InfoSettingUp                                         (* "Setting up Doorman platform" *)
| InfoAddingDevice (name : option string) (state : string)
| InfoSetupStatusNotOK (status : string)                (* logged at level info here *)
| ErrorRetrievingInit (text : string).

Record Platform : Type := {
  entities : list Doorman;
  setup_log : list setup_record;
  platform_io : World
}.

Definition add_entities (new : list Doorman) (p : Platform) : Platform :=
  {| entities := entities p ++ new; setup_log := setup_log p;
     platform_io := platform_io p |}.

Definition add_setup_log (l : setup_record) (p : Platform) : Platform :=
  {| entities := entities p; setup_log := setup_log p ++ [l];
     platform_io := platform_io p |}.

(** Runs a computation on the world inside the platform. *)
Definition lift_platform {A : Type} (c : M World A) : M Platform A :=
  fun p => let (r, w) := c (platform_io p) in
           (r, {| entities := entities p; setup_log := setup_log p; platform_io := w |}).

Section Setup.

Variable net : Oracle.

(** The loop of [async_setup_platform], lines 67-74. *)
Fixpoint async_setup_platform_loop (ld : LoginData) (user pass token : string)
    (devices : list Device) : M Platform unit :=
  match devices with
  | [] => ret tt
  | device :: rest =>
      let device_id := dev_device_id device in
      let name := dev_name device in
      state <- match dev_status_open device with
               | None => raise TypeError
               | Some [] => raise IndexError
               | Some (st :: _) => ret st
               end ;;
      modify (add_setup_log (InfoAddingDevice name state)) ;;
      modify (add_entities [Doorman_init (Some state) ld user pass name device_id token]) ;;
      async_setup_platform_loop ld user pass token rest
  end.

(** [async_setup_platform], lines 52-78.  [hass] and [discovery_info] are
    not used; the value of [config.get(CONF_ID)] is bound and never read. *)
Definition async_setup_platform (config : Config) : M Platform unit :=
  let user := CONF_USERNAME config in
  let pass := CONF_PASSWORD config in
  let initial := CONF_ACCESS_TOKEN config in
  ld <- lift_platform (login net user pass initial) ;;
  token <- getitem "access_token" (access_token ld) ;;
  r <- lift_platform (send net state_reply (GetState token)) ;;
  response <- received r ;;
  let '(status_code, text, body) := response in
  if status_code =? 200 then
    modify (add_setup_log InfoSettingUp) ;;
    data <- json_of body ;;
    status <- getitem "message" (sj_message data) ;;
    if String.eqb status "OK!" then
      inner <- match sj_data data with
               | None => raise AttributeError
               | Some x => ret x
               end ;;
      devices <- match inner with
                 | None => raise TypeError
                 | Some ds => ret ds
                 end ;;
      async_setup_platform_loop ld user pass initial devices
    else
      modify (add_setup_log (InfoSetupStatusNotOK status))
  else
    modify (add_setup_log (ErrorRetrievingInit text)).

End Setup.

(** ** Vocabulary of the statements *)

(** Two entities that differ in the login data at most. *)
Definition same_but_session (d d' : Doorman) : Prop :=
  _state d' = _state d /\ _name d' = _name d /\ device_id d' = device_id d /\
  username d' = username d /\ password d' = password d /\
  initial_token d' = initial_token d /\ report_ids d' = report_ids d.

(** Two entities that differ in the login data and the report identifiers
    at most. *)
Definition same_device (d d' : Doorman) : Prop :=
  _name d' = _name d /\ device_id d' = device_id d /\
  username d' = username d /\ password d' = password d /\
  initial_token d' = initial_token d.

(** The test of line 167. *)
Definition is_door_lock (event : Event) : bool :=
  option_eqb String.eqb (ev_type event) (Some "device_type.door_lock").

(** A request for the status snapshot. *)
Definition is_status_request (r : request) : bool :=
  match r with
  | GetState _ => true
  | _ => false
  end.

(** A device entry that the loops of [get_state] and [async_setup_platform]
    can read: ["status_open"] is a non-empty list. *)
Definition readable (dev : Device) : Prop :=
  exists st rest, dev_status_open dev = Some (st :: rest).

(** The state a readable device entry reports. *)
Definition reported (dev : Device) : option string :=
  match dev_status_open dev with
  | Some (st :: _) => Some st
  | _ => None
  end.

(** The entity line 73 builds for a device entry. *)
Definition entity_of (ld : LoginData) (config : Config) (dev : Device) : Doorman :=
  Doorman_init (reported dev) ld (CONF_USERNAME config) (CONF_PASSWORD config)
    (dev_name dev) (dev_device_id dev) (CONF_ACCESS_TOKEN config).

(** A computation respects a relation on states when every run of it, to a
    value or to an exception, relates the state before to the state after. *)
Definition respects {S A : Type} (R : S -> S -> Prop) (c : M S A) : Prop :=
  forall s r s', c s = (r, s') -> R s s'.

(** What the token check and the status fetch may change of the system:
    the login data, the clock, the requests sent and the log. *)
Definition keeps_entity (s s' : Sys) : Prop :=
  same_but_session (self s) (self s') /\ written (io s') = written (io s).

(** The device, the lock state and the states handed to the host are
    what they were. *)
Definition keeps_state (s s' : Sys) : Prop :=
  same_device (self s) (self s') /\
  _state (self s') = _state (self s) /\
  written (io s') = written (io s).

(** [report_ids] has grown at its end, and has no duplicate if it had
    none. *)
Definition grows_report_ids (s s' : Sys) : Prop :=
  (exists added, report_ids (self s') = (report_ids (self s) ++ added)%list) /\
  (NoDup (report_ids (self s)) -> NoDup (report_ids (self s'))).

(** Requests were sent, none of them for the status snapshot. *)
Definition no_status_request (s s' : Sys) : Prop :=
  exists reqs, sent (io s') = (sent (io s) ++ reqs)%list /\
               forallb (fun r => negb (is_status_request r)) reqs = true.

(** The exception a reply makes [requests] or [response.json()] raise, if
    any. *)
Definition reply_error {B : Type} (r : http B) : option exn :=
  match r with
  | NoResponse => Some RequestException
  | Response _ _ None => Some JSONDecodeError
  | Response _ _ (Some _) => None
  end.

(** The same two on the world alone. *)
Definition keeps_written (w w' : World) : Prop := written w' = written w.

Definition sends_no_status (w w' : World) : Prop :=
  exists reqs, sent w' = (sent w ++ reqs)%list /\
               forallb (fun r => negb (is_status_request r)) reqs = true.

(** What the history fetch may change of the system: the login data, the
    clock, the log, [report_ids] by appending, and the requests sent, by
    requests other than the status request. *)
Definition history_step (s s' : Sys) : Prop :=
  keeps_state s s' /\ grows_report_ids s s' /\ no_status_request s s'.

(** What a whole update cycle keeps. *)
Definition update_step (s s' : Sys) : Prop :=
  same_device (self s) (self s') /\ grows_report_ids s s'.

(** ** Outcomes of the status fetch

    The two predicates below name, on the reply to the status request, the
    situations the specification speaks of.  They are read off the branches
    of [get_state]; a device entry before the one looked for must carry a
    non-empty ["status_open"], which line 131 indexes before the name is
    compared. *)

Definition other_device (name : option string) (dev : Device) : Prop :=
  dev_name dev <> name /\ exists st rest, dev_status_open dev = Some (st :: rest).

(** The fetch fails: another status code than 200, a marker other than
    "OK!", or a device list that [get_state] reads to its end without
    finding the stored name: every entry has a first element under
    ["status_open"] and carries another name. *)
Inductive status_fetch_fails (name : option string) : http StateJson -> Prop :=
| fails_not_200 (code : Z) (text : string) (body : option StateJson) :
    code <> 200 ->
    status_fetch_fails name (Response code text body)
| fails_marker (text status : string) (data : StateJson) :
    sj_message data = Some status ->
    status <> "OK!" ->
    status_fetch_fails name (Response 200 text (Some data))
| fails_no_match (text : string) (data : StateJson) (devices : list Device) :
    sj_message data = Some "OK!" ->
    sj_data data = Some (Some devices) ->
    Forall (other_device name) devices ->
    status_fetch_fails name (Response 200 text (Some data)).

(** The fetch succeeds and the first device entry with the stored name
    reports [state]. *)
Inductive status_fetch_finds (name : option string) (state : string)
  : http StateJson -> Prop :=
| finds_device (text : string) (data : StateJson) (pre post : list Device)
    (dev : Device) (rest : list string) :
    sj_message data = Some "OK!" ->
    sj_data data = Some (Some (pre ++ dev :: post)%list) ->
    Forall (other_device name) pre ->
    dev_name dev = name ->
    dev_status_open dev = Some (state :: rest) ->
    status_fetch_finds name state (Response 200 text (Some data)).

(** ** Sample data

    A lock entity as [async_setup_platform] creates it, and replies of the
    vendor, used to run the program on concrete inputs. *)

Module Sample.

Definition door_lock_event (code : string) (id : Z) : Event :=
  {| ev_type := Some "device_type.door_lock"; ev_report_id := Some (SInt id);
     ev_name := Some "Front door"; ev_user := None; ev_event_type := Some code |}.

Definition session : LoginData :=
  {| access_token := Some "token-1"; expires_in := Some 3600; loggedin := 0 |}.

Definition entity : Doorman :=
  Doorman_init (Some LOCK_STATE) session "user" "secret"
    (Some "Front door") (Some "dev-1") "bootstrap".

Definition quiet : World :=
  {| clock_reads := 0%nat; sent := []; log := []; written := [] |}.

Definition start : Sys := {| self := entity; io := quiet |}.

Definition device (name state : string) : Device :=
  {| dev_device_id := Some "dev-1"; dev_name := Some name;
     dev_status_open := Some [state] |}.

Definition status_of (marker : string) (devices : list Device) : http StateJson :=
  Response 200 "" (Some {| sj_message := Some marker;
                           sj_data := Some (Some devices) |}).

Definition history_of (marker : string) (events : list Event) : http HistoryJson :=
  Response 200 "" (Some {| hj_message := Some marker; hj_data := Some events |}).

Definition token_reply : http TokenJson :=
  Response 200 "" (Some {| tj_access_token := Some "token-2";
                           tj_expires_in := Some 3600 |}).

(** A vendor whose clock stands at [time] and whose two read endpoints
    always give the same answers. *)
Definition vendor (time : Z) (history : http HistoryJson) (status : http StateJson)
  : Oracle :=
  {| now := fun _ => time;
     login_reply := fun _ => token_reply;
     state_reply := fun _ => status;
     history_reply := fun _ => history |}.

(** The vendor at time 100 with a history of [events] and a status
    snapshot [status]. *)
Definition cycle (events : list Event) (status : http StateJson) : Oracle :=
  vendor 100 (history_of "OK!" events) status.

(** The system after the history step of [update] and after its loop. *)
Definition after_history (net : Oracle) : Sys := snd (get_state_history net start).

Definition after_loop (net : Oracle) : Sys :=
  snd (update_loop (match fst (get_state_history net start) with
                    | Ok states => states
                    | Raise _ => []
                    end) (after_history net)).

Definition after_validation (net : Oracle) : Sys :=
  snd (validate_access_token net (after_loop net)).

(** A vendor that cannot be reached for a login. *)
Definition offline (time : Z) : Oracle :=
  {| now := fun _ => time;
     login_reply := fun _ => NoResponse;
     state_reply := fun _ => status_of "OK!" [];
     history_reply := fun _ => history_of "OK!" [] |}.

(** The entity after a login that was answered without ["expires_in"]. *)
Definition without_expiry : Sys :=
  {| self := Doorman_init (Some LOCK_STATE)
               {| access_token := None; expires_in := None; loggedin := 50 |}
               "user" "secret" (Some "Front door") (Some "dev-1") "bootstrap";
     io := quiet |}.

(** A device entry whose ["status_open"] is the empty list. *)
Definition unreadable (name : string) : Device :=
  {| dev_device_id := Some "dev-9"; dev_name := Some name; dev_status_open := Some [] |}.

Definition config : Config :=
  {| CONF_ACCESS_TOKEN := "bootstrap"; CONF_USERNAME := "user";
     CONF_PASSWORD := "secret"; CONF_ID := "dev-1" |}.

(** The platform before the set-up. *)
Definition empty : Platform :=
  {| entities := []; setup_log := []; platform_io := quiet |}.

(** The login data of a set-up against [vendor time]. *)
Definition fresh_session (time : Z) : LoginData :=
  {| access_token := Some "token-2"; expires_in := Some 3600; loggedin := time |}.

End Sample.

(** * Properties *)

(** ** The monad *)

Section MonadFacts.

Context {S A B : Type}.

Lemma bind_ok (c : M S A) (k : A -> M S B) (s s1 : S) (a : A) :
  c s = (Ok a, s1) -> bind c k s = k a s1.
Proof. intros H. unfold bind. now rewrite H. Qed.

Lemma bind_raise (c : M S A) (k : A -> M S B) (s s1 : S) (e : exn) :
  c s = (Raise e, s1) -> bind c k s = (Raise e, s1).
Proof. intros H. unfold bind. now rewrite H. Qed.

Lemma bind_ok_inv (c : M S A) (k : A -> M S B) (s s' : S) (b : B) :
  bind c k s = (Ok b, s') ->
  exists a s1, c s = (Ok a, s1) /\ k a s1 = (Ok b, s').
Proof.
  unfold bind. destruct (c s) as [[a | e] s1]; intros H.
  - now exists a, s1.
  - discriminate.
Qed.

End MonadFacts.

(** ** Comparisons and lookups *)

Lemma scalar_eqb_eq (a b : scalar) : scalar_eqb a b = true <-> a = b.
Proof.
  destruct a as [x | x], b as [y | y]; simpl; split; intros H;
    try discriminate; try (inversion H; subst).
  - apply Z.eqb_eq in H. now subst.
  - apply Z.eqb_refl.
  - apply String.eqb_eq in H. now subst.
  - apply String.eqb_refl.
Qed.

Lemma option_eqb_eq {A : Type} (eqb : A -> A -> bool) :
  (forall x y, eqb x y = true <-> x = y) ->
  forall a b, option_eqb eqb a b = true <-> a = b.
Proof.
  intros Heq [x |] [y |]; simpl; split; intros H; try discriminate; auto.
  - apply Heq in H. now subst.
  - inversion H; subst. now apply Heq.
Qed.

Lemma report_id_eqb_eq (a b : option scalar) :
  option_eqb scalar_eqb a b = true <-> a = b.
Proof. apply option_eqb_eq, scalar_eqb_eq. Qed.

Lemma name_eqb_eq (a b : option string) :
  option_eqb String.eqb a b = true <-> a = b.
Proof. apply option_eqb_eq, String.eqb_eq. Qed.

Lemma py_in_report_ids (rid : option scalar) (seen : list (option scalar)) :
  py_in (option_eqb scalar_eqb) rid seen = true <-> In rid seen.
Proof.
  unfold py_in. rewrite existsb_exists. split.
  - intros [x [Hin Hx]]. apply report_id_eqb_eq in Hx. now subst.
  - intros Hin. exists rid. split; [assumption | now apply report_id_eqb_eq].
Qed.

Lemma py_not_in_report_ids (rid : option scalar) (seen : list (option scalar)) :
  py_in (option_eqb scalar_eqb) rid seen = false <-> ~ In rid seen.
Proof.
  rewrite <- py_in_report_ids. destruct (py_in _ rid seen); split; intros H;
    try discriminate; try reflexivity; try (intros H'; discriminate).
  now contradiction H.
Qed.

(** The range of the state-mapping table. *)
Lemma STATE_ENUM_range (key : option string) (state : string) :
  dict_getitem STATE_ENUM key = Ok state ->
  state = LOCK_STATE \/ state = UNLOCK_STATE.
Proof.
  unfold dict_getitem, STATE_ENUM, LOCK_STATE, UNLOCK_STATE.
  destruct key as [k |]; [| discriminate]. simpl.
  repeat match goal with
         | |- context [String.eqb k ?c] => destruct (String.eqb k c)
         end; intros H; inversion H; auto.
Qed.

(** ** One history event *)

Lemma door_lock_type :
  option_eqb String.eqb (Some "device_type.door_lock") (Some "device_type.door_lock") = true.
Proof. reflexivity. Qed.

Section HistoryEvent.

Variables (event : Event) (states : list string) (s : Sys).

(** An event of another device type is passed over. *)
Lemma event_other_type :
  ev_type event <> Some "device_type.door_lock" ->
  get_state_history_event event states s = (Ok states, s).
Proof.
  intros H. unfold get_state_history_event.
  destruct (option_eqb String.eqb (ev_type event) _) eqn:E; [| reflexivity].
  apply name_eqb_eq in E. contradiction.
Qed.

(** An event whose identifier is on [report_ids] is passed over. *)
Lemma event_seen :
  In (ev_report_id event) (report_ids (self s)) ->
  get_state_history_event event states s = (Ok states, s).
Proof.
  intros H. unfold get_state_history_event.
  destruct (option_eqb String.eqb (ev_type event) _); [| reflexivity].
  cbv zeta. unfold bind, gets. apply py_in_report_ids in H. now rewrite H.
Qed.

Hypothesis door_lock : ev_type event = Some "device_type.door_lock".
Hypothesis unseen : ~ In (ev_report_id event) (report_ids (self s)).

(** A new informational event is recorded and yields nothing. *)
Lemma event_informational :
  dict_contains NON_LOCK_EVENT (ev_event_type event) = true ->
  get_state_history_event event states s
  = (Ok states, on_self (append_report_id (ev_report_id event)) s).
Proof.
  intros H. unfold get_state_history_event. rewrite door_lock, door_lock_type.
  cbv zeta. unfold bind, gets, modify. apply py_not_in_report_ids in unseen.
  rewrite unseen. simpl negb. cbv iota. now rewrite H.
Qed.

(** A new event with a code of the table is recorded and yields its state. *)
Lemma event_mapped (state : string) :
  dict_contains NON_LOCK_EVENT (ev_event_type event) = false ->
  dict_getitem STATE_ENUM (ev_event_type event) = Ok state ->
  get_state_history_event event states s
  = (Ok (states ++ [state])%list,
     on_io (add_log (InfoParsingEvent (ev_report_id event) state))
       (on_self (append_report_id (ev_report_id event)) s)).
Proof.
  intros Hn He. unfold get_state_history_event. rewrite door_lock, door_lock_type.
  cbv zeta. unfold bind, gets, modify, of_result, log_sys. apply py_not_in_report_ids in unseen.
  rewrite unseen. simpl negb. cbv iota. rewrite Hn, He. reflexivity.
Qed.

(** A new event with a code of neither table is recorded, and the lookup
    raises. *)
Lemma event_unrecognized (e : exn) :
  dict_contains NON_LOCK_EVENT (ev_event_type event) = false ->
  dict_getitem STATE_ENUM (ev_event_type event) = Raise e ->
  get_state_history_event event states s
  = (Raise e, on_self (append_report_id (ev_report_id event)) s).
Proof.
  intros Hn He. unfold get_state_history_event. rewrite door_lock, door_lock_type.
  cbv zeta. unfold bind, gets, modify, of_result. apply py_not_in_report_ids in unseen.
  rewrite unseen. simpl negb. cbv iota. rewrite Hn, He. reflexivity.
Qed.

End HistoryEvent.

(** Every way through the loop body, in one statement: the event is passed
    over, or its identifier is appended and the outcome is decided by the
    two tables. *)
Lemma event_cases (event : Event) (states : list string) (s : Sys) :
  let rid := ev_report_id event in
  let s1 := on_self (append_report_id rid) s in
  (get_state_history_event event states s = (Ok states, s) /\
   (ev_type event <> Some "device_type.door_lock" \/ In rid (report_ids (self s))))
  \/
  (ev_type event = Some "device_type.door_lock" /\ ~ In rid (report_ids (self s)) /\
   (get_state_history_event event states s = (Ok states, s1) \/
    (exists state,
        dict_getitem STATE_ENUM (ev_event_type event) = Ok state /\
        get_state_history_event event states s
        = (Ok (states ++ [state])%list,
           on_io (add_log (InfoParsingEvent rid state)) s1)) \/
    (exists e, get_state_history_event event states s = (Raise e, s1)))).
Proof.
  intros rid s1.
  destruct (option_eqb String.eqb (ev_type event) (Some "device_type.door_lock")) eqn:Et.
  - apply name_eqb_eq in Et.
    destruct (py_in (option_eqb scalar_eqb) rid (report_ids (self s))) eqn:Ei.
    + apply py_in_report_ids in Ei. left. split; [now apply event_seen | now right].
    + apply py_not_in_report_ids in Ei. right. do 2 (split; [assumption |]).
      destruct (dict_contains NON_LOCK_EVENT (ev_event_type event)) eqn:En.
      * left. now apply event_informational.
      * destruct (dict_getitem STATE_ENUM (ev_event_type event)) as [state | e] eqn:Es.
        -- right; left. exists state. split; [reflexivity | now apply event_mapped].
        -- right; right. exists e. now apply event_unrecognized.
  - left. assert (Hne : ev_type event <> Some "device_type.door_lock").
    { intros H. rewrite H, door_lock_type in Et. discriminate. }
    split; [now apply event_other_type | now left].
Qed.

(** [report_ids] only grows, whatever the outcome. *)
Lemma event_keeps_seen (event : Event) (states : list string) (s s' : Sys)
    (r : result (list string)) (x : option scalar) :
  get_state_history_event event states s = (r, s') ->
  In x (report_ids (self s)) -> In x (report_ids (self s')).
Proof.
  intros Hrun Hin.
  destruct (event_cases event states s)
    as [[H _] | (_ & _ & [H | [(st & _ & H) | (e & H)]])];
    rewrite H in Hrun; inversion Hrun; subst; simpl; auto using in_or_app.
Qed.

(** After the body has run on a door-lock event, its identifier is on
    [report_ids], whatever the outcome. *)
Lemma event_marks_seen (event : Event) (states : list string) (s s' : Sys)
    (r : result (list string)) :
  ev_type event = Some "device_type.door_lock" ->
  get_state_history_event event states s = (r, s') ->
  In (ev_report_id event) (report_ids (self s')).
Proof.
  intros Ht Hrun.
  destruct (event_cases event states s)
    as [[H [Hne | Hin]] | (_ & _ & [H | [(st & _ & H) | (e & H)]])];
    rewrite H in Hrun; inversion Hrun; subst; simpl;
    try contradiction; auto; apply in_or_app; right; now left.
Qed.

(** ** The loop over a batch *)

Lemma loop_keeps_seen (events : list Event) (x : option scalar) :
  forall (states : list string) (s s' : Sys) (r : result (list string)),
  get_state_history_loop events states s = (r, s') ->
  In x (report_ids (self s)) -> In x (report_ids (self s')).
Proof.
  induction events as [| event rest IH]; intros states s s' r Hrun Hin.
  - inversion Hrun; now subst.
  - simpl in Hrun. unfold bind in Hrun.
    destruct (get_state_history_event event states s) as [[st1 | e] s1] eqn:E.
    + eapply IH; [exact Hrun |]. eapply event_keeps_seen; eassumption.
    + inversion Hrun; subst. eapply event_keeps_seen; eassumption.
Qed.

(** When the loop returns, every door-lock event of the batch is on
    [report_ids]. *)
Lemma loop_marks_seen (events : list Event) :
  forall (states out : list string) (s s' : Sys),
  get_state_history_loop events states s = (Ok out, s') ->
  forall event, In event events ->
    ev_type event = Some "device_type.door_lock" ->
    In (ev_report_id event) (report_ids (self s')).
Proof.
  induction events as [| e rest IH]; intros states out s s' Hrun event Hin Ht.
  - contradiction.
  - simpl in Hrun. apply bind_ok_inv in Hrun. destruct Hrun as (st1 & s1 & H1 & H2).
    destruct Hin as [-> | Hin].
    + eapply loop_keeps_seen; [exact H2 |]. eapply event_marks_seen; eassumption.
    + eapply IH; eassumption.
Qed.

(** A batch whose door-lock events are all on [report_ids] changes nothing
    and adds nothing to [states]. *)
Lemma loop_all_seen (events : list Event) (states : list string) (s : Sys) :
  (forall event, In event events ->
     ev_type event = Some "device_type.door_lock" ->
     In (ev_report_id event) (report_ids (self s))) ->
  get_state_history_loop events states s = (Ok states, s).
Proof.
  induction events as [| e rest IH]; intros Hall; [reflexivity |].
  simpl. erewrite bind_ok.
  - apply IH. intros event Hin. apply Hall. now right.
  - destruct (event_cases e states s) as [[H _] | (Ht & Hn & _)]; [exact H |].
    exfalso. apply Hn, Hall; [now left | assumption].
Qed.

(** The states the loop returns are those it was given followed by values
    of the state-mapping table. *)
Lemma loop_range (events : list Event) :
  forall (states out : list string) (s s' : Sys),
  get_state_history_loop events states s = (Ok out, s') ->
  Forall (fun state => state = LOCK_STATE \/ state = UNLOCK_STATE) states ->
  Forall (fun state => state = LOCK_STATE \/ state = UNLOCK_STATE) out.
Proof.
  induction events as [| e rest IH]; intros states out s s' Hrun Hst.
  - inversion Hrun; now subst.
  - simpl in Hrun. apply bind_ok_inv in Hrun. destruct Hrun as (st1 & s1 & H1 & H2).
    apply (IH _ _ _ _ H2).
    destruct (event_cases e states s)
      as [[H _] | (_ & _ & [H | [(st & Hst' & H) | (x & H)]])];
      rewrite H in H1; inversion H1; subst; auto.
    apply Forall_app. split; [assumption |].
    constructor; [| constructor]. eapply STATE_ENUM_range; eassumption.
Qed.

(** The loop stops at the first event on which the body raises: the events
    after it have no effect. *)
Lemma loop_stops_at_raise (event : Event) (rest : list Event)
    (states : list string) (s s1 : Sys) (e : exn) :
  get_state_history_event event states s = (Raise e, s1) ->
  get_state_history_loop (event :: rest) states s = (Raise e, s1).
Proof. intros H. simpl. now apply bind_raise. Qed.

(** ** The access token *)

Section AccessToken.

Variables (net : Oracle) (s : Sys) (expires : Z).

Hypothesis has_expiry : expires_in (login_data (self s)) = Some expires.

(** The test of line 146 fails: nothing but the clock reading happens. *)
Lemma validate_access_token_keeps :
  now net (clock_reads (io s)) - 1000 < loggedin (login_data (self s)) + expires ->
  validate_access_token net s = (Ok tt, on_io tick_clock s).
Proof.
  intros Hlt. unfold validate_access_token, bind, lift, datetime_now, gets. simpl.
  rewrite has_expiry. simpl.
  destruct (Z.leb_spec (loggedin (login_data (self s)) + expires)
              (now net (clock_reads (io s)) - 1000)); [lia | reflexivity].
Qed.

(** The test of line 146 succeeds and the token endpoint answers with JSON:
    one login request is sent and [login_data] is replaced by its answer,
    stamped with the next clock reading. *)
Lemma validate_access_token_refreshes (code : Z) (text : string) (tj : TokenJson) :
  loggedin (login_data (self s)) + expires <= now net (clock_reads (io s)) - 1000 ->
  login_reply net (List.length (sent (io s))) = Response code text (Some tj) ->
  validate_access_token net s
  = (Ok tt,
     {| self := set_login_data
                  {| access_token := tj_access_token tj;
                     expires_in := tj_expires_in tj;
                     loggedin := now net (S (clock_reads (io s))) |} (self s);
        io := {| clock_reads := S (S (clock_reads (io s)));
                 sent := sent (io s)
                         ++ [PostLogin (username (self s)) (password (self s))
                               (initial_token (self s))];
                 log := log (io s)
                        ++ [InfoTokenExpired; InfoTryingLogin; InfoLoggedIn];
                 written := written (io s) |} |}).
Proof.
  intros Hle Hreply.
  unfold validate_access_token, bind, lift, datetime_now, gets. simpl.
  rewrite has_expiry. simpl.
  destruct (Z.leb_spec (loggedin (login_data (self s)) + expires)
              (now net (clock_reads (io s)) - 1000)); [| lia].
  unfold log_sys, modify, login, bind, log_io, modify, send, datetime_now. simpl.
  rewrite Hreply. simpl. unfold on_self, add_log, tick_clock, add_sent. simpl.
  repeat rewrite <- app_assoc. reflexivity.
Qed.

End AccessToken.

(** ** Fetching the history *)

Section FetchHistory.

Variables (net : Oracle) (s s1 : Sys) (token : string).

Hypothesis validated : validate_access_token net s = (Ok tt, s1).
Hypothesis has_token : access_token (login_data (self s1)) = Some token.

Let s2 : Sys := on_io (add_sent (GetHistory token)) s1.

(** A 200 answer with the marker "OK!": the loop decides. *)
Lemma get_state_history_ok (text : string) (data : HistoryJson) (events : list Event) :
  history_reply net (List.length (sent (io s1))) = Response 200 text (Some data) ->
  hj_message data = Some "OK!" ->
  hj_data data = Some events ->
  get_state_history net s = get_state_history_loop events [] s2.
Proof.
  intros Hreply Hm Hd. unfold get_state_history.
  rewrite (bind_ok _ _ _ _ _ validated).
  unfold bind at 1. unfold gets. rewrite has_token.
  unfold getitem, bind at 1, ret. unfold bind at 1, lift, send. cbn [io self].
  rewrite Hreply. unfold bind at 1, received, ret. cbv beta iota.
  change (200 =? 200) with true. cbv iota.
  unfold bind at 1, json_of, ret. unfold bind at 1. rewrite Hm.
  change (String.eqb "OK!" "OK!") with true. cbv iota.
  unfold bind at 1. rewrite Hd. reflexivity.
Qed.

(** A 200 answer with another marker: the empty list, and an error record. *)
Lemma get_state_history_not_ok (text status : string) (data : HistoryJson) :
  history_reply net (List.length (sent (io s1))) = Response 200 text (Some data) ->
  hj_message data = Some status ->
  status <> "OK!" ->
  get_state_history net s = (Ok [], on_io (add_log (ErrorStatusNotOK status)) s2).
Proof.
  intros Hreply Hm Hne. unfold get_state_history.
  rewrite (bind_ok _ _ _ _ _ validated).
  unfold bind at 1. unfold gets. rewrite has_token.
  unfold getitem, bind at 1, ret. unfold bind at 1, lift, send. cbn [io self].
  rewrite Hreply. unfold bind at 1, received, ret. cbv beta iota.
  change (200 =? 200) with true. cbv iota.
  unfold bind at 1, json_of, ret. unfold bind at 1. rewrite Hm.
  destruct (String.eqb_spec status "OK!") as [-> | _]; [contradiction |].
  reflexivity.
Qed.

(** An answer with another status code: an error record, and then line 184
    reads [states], which was never assigned. *)
Lemma get_state_history_not_200 (code : Z) (text : string) (body : option HistoryJson) :
  history_reply net (List.length (sent (io s1))) = Response code text body ->
  code <> 200 ->
  get_state_history net s
  = (Raise (UnboundLocalError "states"), on_io (add_log (ErrorRetrieving text)) s2).
Proof.
  intros Hreply Hne. unfold get_state_history.
  rewrite (bind_ok _ _ _ _ _ validated).
  unfold bind at 1. unfold gets. rewrite has_token.
  unfold getitem, bind at 1, ret. unfold bind at 1, lift, send. cbn [io self].
  rewrite Hreply. unfold bind at 1, received, ret. cbv beta iota.
  destruct (Z.eqb_spec code 200) as [-> | _]; [contradiction |].
  reflexivity.
Qed.

End FetchHistory.

(** Whatever [get_state_history] returns is the empty list or what the loop
    returned, started on the empty list. *)
Lemma get_state_history_returns (net : Oracle) (s s' : Sys) (states : list string) :
  get_state_history net s = (Ok states, s') ->
  states = [] \/
  exists events s2, get_state_history_loop events [] s2 = (Ok states, s').
Proof.
  unfold get_state_history. intros H.
  apply bind_ok_inv in H. destruct H as (_ & s1 & _ & H).
  apply bind_ok_inv in H. destruct H as (d & sa & _ & H).
  apply bind_ok_inv in H. destruct H as (token & sb & _ & H).
  apply bind_ok_inv in H. destruct H as (r & sc & _ & H).
  apply bind_ok_inv in H. destruct H as ([[code text] body] & sd & _ & H).
  destruct (code =? 200).
  - apply bind_ok_inv in H. destruct H as (data & se & _ & H).
    apply bind_ok_inv in H. destruct H as (status & sf & _ & H).
    destruct (String.eqb status "OK!").
    + apply bind_ok_inv in H. destruct H as (events & sg & _ & H).
      right. now exists events, sg.
    + apply bind_ok_inv in H. destruct H as (_ & sg & _ & H).
      left. now inversion H.
  - apply bind_ok_inv in H. destruct H as (_ & se & _ & H). discriminate.
Qed.

(** ** Fetching the status *)

(** The loop of [get_state] on devices that all carry another name and a
    non-empty ["status_open"]: it runs off the end. *)
Lemma get_state_loop_no_match (devices : list Device) (s : Sys) :
  Forall (other_device (_name (self s))) devices ->
  get_state_loop devices s = (Ok None, s).
Proof.
  induction 1 as [| dev rest [Hn (st & tl & Ho)] _ IH]; [reflexivity |].
  simpl. rewrite Ho. unfold bind at 1, ret. unfold bind at 1, gets.
  destruct (option_eqb String.eqb (dev_name dev) (_name (self s))) eqn:E.
  - apply name_eqb_eq in E. contradiction.
  - exact IH.
Qed.

(** The loop returns the first element of ["status_open"] of the first
    device that carries the stored name. *)
Lemma get_state_loop_match (pre post : list Device) (dev : Device) (s : Sys)
    (state : string) (rest : list string) :
  Forall (other_device (_name (self s))) pre ->
  dev_name dev = _name (self s) ->
  dev_status_open dev = Some (state :: rest) ->
  exists s', get_state_loop (pre ++ dev :: post) s = (Ok (Some state), s') /\
             self s' = self s /\ sent (io s') = sent (io s).
Proof.
  intros Hpre Hn Ho.
  induction Hpre as [| d pre' [Hdn (st & tl & Hdo)] _ IH].
  - simpl. rewrite Ho. unfold bind at 1, ret. unfold bind at 1, gets.
    apply name_eqb_eq in Hn. rewrite Hn.
    destruct (negb (String.eqb state LOCK_STATE) && negb (String.eqb state UNLOCK_STATE)).
    + eexists. split; [reflexivity | split; reflexivity].
    + eexists. split; [reflexivity | split; reflexivity].
  - simpl. rewrite Hdo. unfold bind at 1, ret. unfold bind at 1, gets.
    destruct (option_eqb String.eqb (dev_name d) (_name (self s))) eqn:E.
    + apply name_eqb_eq in E. contradiction.
    + exact IH.
Qed.

Section FetchStatus.

Variables (net : Oracle) (s s1 : Sys) (token : string).

Hypothesis validated : validate_access_token net s = (Ok tt, s1).
Hypothesis has_token : access_token (login_data (self s1)) = Some token.

Let s2 : Sys := on_io (add_sent (GetState token)) s1.

(** On a failed fetch [get_state] runs off its end: its value is [None]. *)
Lemma get_state_fails :
  status_fetch_fails (_name (self s1)) (state_reply net (List.length (sent (io s1)))) ->
  exists s', get_state net s = (Ok None, s') /\ self s' = self s1.
Proof.
  intros Hf. unfold get_state.
  rewrite (bind_ok _ _ _ _ _ validated).
  unfold bind at 1. unfold gets. rewrite has_token.
  unfold getitem, bind at 1, ret. unfold bind at 1, lift, send. cbn [io self].
  fold s2.
  inversion Hf as [code text body Hne Hr | text status data Hm Hne Hr
                  | text data devices Hm Hd Hall Hr];
    unfold bind at 1, received, ret; cbv beta iota.
  - destruct (Z.eqb_spec code 200) as [-> | _]; [contradiction |].
    eexists. split; [reflexivity | reflexivity].
  - change (200 =? 200) with true. cbv iota.
    unfold bind at 1, json_of, ret. unfold bind at 1. rewrite Hm.
    destruct (String.eqb_spec status "OK!") as [-> | _]; [contradiction |].
    eexists. split; [reflexivity | reflexivity].
  - change (200 =? 200) with true. cbv iota.
    unfold bind at 1, json_of, ret. unfold bind at 1. rewrite Hm.
    change (String.eqb "OK!" "OK!") with true. cbv iota.
    unfold bind at 1. rewrite Hd. unfold bind at 1.
    exists s2. split; [| reflexivity].
    apply get_state_loop_no_match. exact Hall.
Qed.

(** On a successful fetch [get_state] returns the state the snapshot reports
    for the device. *)
Lemma get_state_finds (state : string) :
  status_fetch_finds (_name (self s1)) state
    (state_reply net (List.length (sent (io s1)))) ->
  exists s', get_state net s = (Ok (Some state), s') /\ self s' = self s1.
Proof.
  intros Hf. unfold get_state.
  rewrite (bind_ok _ _ _ _ _ validated).
  unfold bind at 1. unfold gets. rewrite has_token.
  unfold getitem, bind at 1, ret. unfold bind at 1, lift, send. cbn [io self].
  fold s2.
  inversion Hf as [text data pre post dev rest Hm Hd Hpre Hn Ho Hr].
  unfold bind at 1, received, ret; cbv beta iota.
  change (200 =? 200) with true. cbv iota.
  unfold bind at 1, json_of, ret. unfold bind at 1. rewrite Hm.
  change (String.eqb "OK!" "OK!") with true. cbv iota.
  unfold bind at 1. rewrite Hd. unfold bind at 1.
  destruct (get_state_loop_match pre post dev s2 state rest Hpre Hn Ho)
    as (s' & Hrun & Hself & _).
  exists s'. split; assumption.
Qed.

End FetchStatus.

(** ** The update cycle *)

(** The loop of [update] cannot raise. *)
Lemma update_loop_returns (states : list string) :
  forall s, exists s', update_loop states s = (Ok tt, s').
Proof.
  induction states as [| state rest IH]; intros s; simpl.
  - now exists s.
  - unfold bind at 1, modify. unfold bind at 1, async_write_ha_state. apply IH.
Qed.

(** [update], once its three steps have returned. *)
Lemma update_returns (net : Oracle) (s s1 s1' s2 : Sys) (states : list string)
    (state : option string) :
  get_state_history net s = (Ok states, s1) ->
  update_loop states s1 = (Ok tt, s1') ->
  get_state net s1' = (Ok state, s2) ->
  update net s = (Ok tt, on_self (set_state state) s2).
Proof.
  intros Hh Hl Hg. unfold update.
  rewrite (bind_ok _ _ _ _ _ Hh), (bind_ok _ _ _ _ _ Hl), (bind_ok _ _ _ _ _ Hg).
  reflexivity.
Qed.

(** * The session *)

(** C1 fails on the code.  The session below was acquired at time 0 and is
    good for 3600 seconds; the clock reads 4000, so the session expired 400
    seconds ago.  [validate_access_token] reads the clock and does nothing
    else: no login request is sent and [login_data] is what it was.  The
    test of line 146 subtracts the 1000-second margin from the clock, so a
    session is replaced only once it has been expired for 1000 seconds
    ([validate_access_token_keeps], [validate_access_token_refreshes]). *)
Theorem expired_session_is_kept :
  let net := Sample.vendor 4000 (Sample.history_of "OK!" []) (Sample.status_of "OK!" []) in
  let s := Sample.start in
  expires_in (login_data (self s)) = Some 3600 /\
  loggedin (login_data (self s)) + 3600 < now net (clock_reads (io s)) /\
  validate_access_token net s = (Ok tt, on_io tick_clock s) /\
  login_data (self (snd (validate_access_token net s))) = login_data (self s) /\
  sent (io (snd (validate_access_token net s))) = [].
Proof. cbv zeta. repeat split; vm_compute; reflexivity. Qed.

(** * Reconciliation of the history *)

(** C2 fails on the code.  In the batch below the first event carries the
    code "9999", which is in neither table, and the second the code "1807".
    [get_state_history] raises [KeyError] at the first event: the second is
    never reached (its identifier is not on [report_ids]), nothing is
    returned, and [update] stops with the same exception before the status
    is fetched. *)
Theorem unrecognized_code_aborts_batch :
  let batch := [Sample.door_lock_event "9999" 1; Sample.door_lock_event "1807" 2] in
  let net := Sample.vendor 100 (Sample.history_of "OK!" batch)
               (Sample.status_of "OK!" [Sample.device "Front door" UNLOCK_STATE]) in
  dict_contains NON_LOCK_EVENT (Some "9999") = false /\
  dict_get STATE_ENUM "9999" = None /\
  fst (get_state_history net Sample.start) = Raise (KeyError (Some "9999")) /\
  report_ids (self (snd (get_state_history net Sample.start))) = [Some (SInt 1)] /\
  fst (update net Sample.start) = Raise (KeyError (Some "9999")) /\
  sent (io (snd (update net Sample.start))) = [GetHistory "token-1"].
Proof. cbv zeta. repeat split; vm_compute; reflexivity. Qed.



(** C7.  A door-lock event with the code "1602" whose report identifier is
    not on [report_ids] adds nothing to the states: the loop goes on with
    the same list, and the identifier is now the last entry of
    [report_ids]. *)
Theorem informational_event_recorded_without_state
    (event : Event) (states : list string) (s : Sys) :
  ev_type event = Some "device_type.door_lock" ->
  ev_event_type event = Some "1602" ->
  ~ In (ev_report_id event) (report_ids (self s)) ->
  exists s',
    get_state_history_event event states s = (Ok states, s') /\
    report_ids (self s') = (report_ids (self s) ++ [ev_report_id event])%list /\
    In (ev_report_id event) (report_ids (self s')) /\
    forall rest,
      get_state_history_loop (event :: rest) states s
      = get_state_history_loop rest states s'.
Proof.
  intros Ht Hc Hn.
  assert (Hrun : get_state_history_event event states s
                 = (Ok states, on_self (append_report_id (ev_report_id event)) s)).
  { apply event_informational; [assumption | assumption |]. now rewrite Hc. }
  exists (on_self (append_report_id (ev_report_id event)) s).
  split; [exact Hrun |]. split; [reflexivity |]. split.
  - simpl. apply in_or_app. right. now left.
  - intros rest. simpl. now rewrite (bind_ok _ _ _ _ _ Hrun).
Qed.

(** C8.  On the batch of a door-lock event with code "1801" and identifier
    1 followed by one with code "1807" and identifier 2, neither identifier
    on [report_ids], the loop returns the unlocked state followed by the
    locked state, and both identifiers are recorded. *)
Theorem unlock_then_lock_in_order (name1 user1 name2 user2 : option string) (s : Sys) :
  let E1 := {| ev_type := Some "device_type.door_lock"; ev_report_id := Some (SInt 1);
               ev_name := name1; ev_user := user1; ev_event_type := Some "1801" |} in
  let E2 := {| ev_type := Some "device_type.door_lock"; ev_report_id := Some (SInt 2);
               ev_name := name2; ev_user := user2; ev_event_type := Some "1807" |} in
  ~ In (Some (SInt 1)) (report_ids (self s)) ->
  ~ In (Some (SInt 2)) (report_ids (self s)) ->
  exists s',
    get_state_history_loop [E1; E2] [] s = (Ok [UNLOCK_STATE; LOCK_STATE], s') /\
    report_ids (self s') = (report_ids (self s) ++ [Some (SInt 1); Some (SInt 2)])%list.
Proof.
  intros E1 E2 H1 H2.
  assert (R1 : get_state_history_event E1 [] s
               = (Ok [UNLOCK_STATE],
                  on_io (add_log (InfoParsingEvent (Some (SInt 1)) UNLOCK_STATE))
                    (on_self (append_report_id (Some (SInt 1))) s))).
  { apply (event_mapped E1 [] s); auto. }
  set (s1 := on_io (add_log (InfoParsingEvent (Some (SInt 1)) UNLOCK_STATE))
               (on_self (append_report_id (Some (SInt 1))) s)) in *.
  assert (R2 : get_state_history_event E2 [UNLOCK_STATE] s1
               = (Ok [UNLOCK_STATE; LOCK_STATE],
                  on_io (add_log (InfoParsingEvent (Some (SInt 2)) LOCK_STATE))
                    (on_self (append_report_id (Some (SInt 2))) s1))).
  { apply (event_mapped E2 [UNLOCK_STATE] s1); auto.
    simpl. intros Hin. apply in_app_or in Hin. destruct Hin as [Hin | [Hin | []]].
    - contradiction.
    - discriminate. }
  eexists. split.
  - simpl. rewrite (bind_ok _ _ _ _ _ R1), (bind_ok _ _ _ _ _ R2). reflexivity.
  - simpl. now rewrite <- app_assoc.
Qed.

(** C10.  Every element of a list [get_state_history] returns is
    "device_status.lock" or "device_status.unlock". *)
Theorem get_state_history_range (net : Oracle) (s s' : Sys) (states : list string) :
  get_state_history net s = (Ok states, s') ->
  Forall (fun state => state = "device_status.lock" \/ state = "device_status.unlock")
    states.
Proof.
  intros H. apply get_state_history_returns in H.
  destruct H as [-> | (events & s2 & H)]; [constructor |].
  apply (loop_range _ _ _ _ _ H). constructor.
Qed.

(** C6 fails on the code.  When the history request is answered with a
    status code other than 200, [get_state_history] logs the error and then
    raises [UnboundLocalError]: [states] is assigned only inside the branch
    for code 200.  (With code 200 and a marker other than "OK!" the empty
    list is returned: [get_state_history_not_ok].) *)
Theorem get_state_history_raises_on_error_status
    (net : Oracle) (s s1 : Sys) (token : string)
    (code : Z) (text : string) (body : option HistoryJson) :
  validate_access_token net s = (Ok tt, s1) ->
  access_token (login_data (self s1)) = Some token ->
  history_reply net (List.length (sent (io s1))) = Response code text body ->
  code <> 200 ->
  get_state_history net s
  = (Raise (UnboundLocalError "states"),
     on_io (add_log (ErrorRetrieving text)) (on_io (add_sent (GetHistory token)) s1)).
Proof.
  intros Hv Ht Hr Hc.
  now apply get_state_history_not_200 with (code := code) (body := body).
Qed.

(** * The update cycle *)

(** C3 fails on the code.  The entity below is locked; the history is empty
    and the status fetch fails in each of the three ways.  Every time
    [update] returns and the state is no longer the prior one: it is [None],
    the value of [get_state] on a failed fetch, which line 192 stores. *)
Lemma failed_status_fetch_replaces_state :
  let no_match := Sample.cycle [] (Sample.status_of "OK!"
                                     [Sample.device "Back door" LOCK_STATE]) in
  let marker := Sample.cycle [] (Sample.status_of "Error"
                                   [Sample.device "Front door" LOCK_STATE]) in
  let not_200 := Sample.cycle [] (Response 500 "Internal Server Error" None) in
  _state (self Sample.start) = Some LOCK_STATE /\
  _name (self Sample.start) = Some "Front door" /\
  (fst (update no_match Sample.start) = Ok tt /\
   _state (self (snd (update no_match Sample.start))) = None) /\
  (fst (update marker Sample.start) = Ok tt /\
   _state (self (snd (update marker Sample.start))) = None) /\
  (fst (update not_200 Sample.start) = Ok tt /\
   _state (self (snd (update not_200 Sample.start))) = None) /\
  _state (self (snd (update no_match Sample.start))) <> _state (self Sample.start).
Proof. cbv zeta. repeat split; vm_compute; try reflexivity. discriminate. Qed.

(** C3, as it holds on the code.  When the history step of the cycle has
    returned and the status fetch then fails, [update] returns and the lock
    state is [None], whatever it was before; [is_locked] is then false.
    The fetch fails when the answer has another status code than 200, or
    code 200 and a marker other than "OK!", or code 200, the marker "OK!"
    and a device list in which every entry has a first element under
    ["status_open"] and none carries the stored name.  (A list with an
    entry that lacks that element is not such a failure: [get_state] raises
    on it at line 131.) *)
Theorem failed_status_fetch_clears_state
    (net : Oracle) (s s1 s1' s2 : Sys) (states : list string) (token : string) :
  get_state_history net s = (Ok states, s1) ->
  update_loop states s1 = (Ok tt, s1') ->
  validate_access_token net s1' = (Ok tt, s2) ->
  access_token (login_data (self s2)) = Some token ->
  status_fetch_fails (_name (self s2)) (state_reply net (List.length (sent (io s2)))) ->
  exists s3,
    update net s = (Ok tt, s3) /\
    _state (self s3) = None /\
    is_locked (self s3) = false.
Proof.
  intros Hh Hl Hv Ht Hf.
  destruct (get_state_fails net s1' s2 token Hv Ht Hf) as (s' & Hg & _).
  exists (on_self (set_state None) s'). split; [| split; reflexivity].
  eapply update_returns; eassumption.
Qed.

(** C4.  When the history step has returned [states] and the status fetch
    then succeeds and finds the device reporting [state], [update] returns
    and the lock state is [state], whatever [states] holds. *)
Theorem status_snapshot_overrides_history
    (net : Oracle) (s s1 s1' s2 : Sys) (states : list string) (token state : string) :
  get_state_history net s = (Ok states, s1) ->
  update_loop states s1 = (Ok tt, s1') ->
  validate_access_token net s1' = (Ok tt, s2) ->
  access_token (login_data (self s2)) = Some token ->
  status_fetch_finds (_name (self s2)) state
    (state_reply net (List.length (sent (io s2)))) ->
  exists s3,
    update net s = (Ok tt, s3) /\
    _state (self s3) = Some state.
Proof.
  intros Hh Hl Hv Ht Hf.
  destruct (get_state_finds net s1' s2 token Hv Ht state Hf) as (s' & Hg & _).
  exists (on_self (set_state (Some state)) s'). split; [| reflexivity].
  eapply update_returns; eassumption.
Qed.

(** * Commands *)

(** C9.  [lock] and [unlock] return without changing any field of the
    entity, nor anything in the world. *)
Theorem lock_unlock_change_nothing (s : Sys) :
  let unchanged (s' : Sys) :=
    _state (self s') = _state (self s) /\
    login_data (self s') = login_data (self s) /\
    report_ids (self s') = report_ids (self s) /\
    _name (self s') = _name (self s) /\
    device_id (self s') = device_id (self s) /\
    username (self s') = username (self s) /\
    password (self s') = password (self s) /\
    initial_token (self s') = initial_token (self s) /\
    s' = s in
  (fst (lock s) = Ok tt /\ unchanged (snd (lock s))) /\
  (fst (unlock s) = Ok tt /\ unchanged (snd (unlock s))).
Proof. cbv zeta. unfold lock, unlock, ret. simpl. repeat split. Qed.

(** * Runs on the sample data *)


(** A periodic test, never seen, in front of an unlock event. *)
Lemma informational_event_recorded_without_state_witness :
  exists s',
    get_state_history_event (Sample.door_lock_event "1602" 5) [] Sample.start
    = (Ok [], s') /\
    report_ids (self s') = [Some (SInt 5)] /\
    In (Some (SInt 5)) (report_ids (self s')) /\
    forall rest,
      get_state_history_loop (Sample.door_lock_event "1602" 5 :: rest) [] Sample.start
      = get_state_history_loop rest [] s'.
Proof.
  apply (informational_event_recorded_without_state
           (Sample.door_lock_event "1602" 5) [] Sample.start).
  - reflexivity.
  - reflexivity.
  - simpl. intros H. exact H.
Defined.

(** The two events of the ordering property, on an entity that has seen
    nothing. *)
Lemma unlock_then_lock_in_order_witness :
  exists s',
    get_state_history_loop
      [Sample.door_lock_event "1801" 1; Sample.door_lock_event "1807" 2] []
      Sample.start
    = (Ok ["device_status.unlock"; "device_status.lock"], s') /\
    report_ids (self s') = [Some (SInt 1); Some (SInt 2)].
Proof.
  apply (unlock_then_lock_in_order (Some "Front door") None (Some "Front door") None
           Sample.start).
  - simpl. intros H. exact H.
  - simpl. intros H. exact H.
Defined.

(** The same two events through [get_state_history]. *)
Lemma get_state_history_range_witness :
  let net := Sample.cycle [Sample.door_lock_event "1801" 1;
                           Sample.door_lock_event "1807" 2]
               (Sample.status_of "OK!" []) in
  fst (get_state_history net Sample.start)
  = Ok ["device_status.unlock"; "device_status.lock"] /\
  Forall (fun state => state = "device_status.lock" \/ state = "device_status.unlock")
    ["device_status.unlock"; "device_status.lock"].
Proof.
  cbv zeta. split.
  - vm_compute. reflexivity.
  - apply (get_state_history_range
             (Sample.cycle [Sample.door_lock_event "1801" 1;
                            Sample.door_lock_event "1807" 2]
                (Sample.status_of "OK!" []))
             Sample.start
             (Sample.after_history
                (Sample.cycle [Sample.door_lock_event "1801" 1;
                               Sample.door_lock_event "1807" 2]
                   (Sample.status_of "OK!" [])))).
    vm_compute. reflexivity.
Defined.

(** The history endpoint answers 500. *)
Lemma get_state_history_raises_on_error_status_witness :
  let net := Sample.vendor 100 (Response 500 "Internal Server Error" None)
               (Sample.status_of "OK!" []) in
  fst (get_state_history net Sample.start) = Raise (UnboundLocalError "states").
Proof.
  cbv zeta.
  rewrite (get_state_history_raises_on_error_status
             (Sample.vendor 100 (Response 500 "Internal Server Error" None)
                (Sample.status_of "OK!" []))
             Sample.start (on_io tick_clock Sample.start) "token-1"
             500 "Internal Server Error" None).
  - reflexivity.
  - vm_compute. reflexivity.
  - reflexivity.
  - reflexivity.
  - lia.
Defined.

(** The snapshot lists another device only: the locked entity ends the
    cycle without a state. *)
Lemma failed_status_fetch_clears_state_witness :
  let net := Sample.cycle [] (Sample.status_of "OK!"
                                [Sample.device "Back door" LOCK_STATE]) in
  _state (self Sample.start) = Some LOCK_STATE /\
  exists s3,
    update net Sample.start = (Ok tt, s3) /\
    _state (self s3) = None /\
    is_locked (self s3) = false.
Proof.
  cbv zeta. split; [reflexivity |].
  apply (failed_status_fetch_clears_state
           (Sample.cycle [] (Sample.status_of "OK!"
                               [Sample.device "Back door" LOCK_STATE]))
           Sample.start
           (Sample.after_history
              (Sample.cycle [] (Sample.status_of "OK!"
                                  [Sample.device "Back door" LOCK_STATE])))
           (Sample.after_loop
              (Sample.cycle [] (Sample.status_of "OK!"
                                  [Sample.device "Back door" LOCK_STATE])))
           (Sample.after_validation
              (Sample.cycle [] (Sample.status_of "OK!"
                                  [Sample.device "Back door" LOCK_STATE])))
           [] "token-1").
  - vm_compute. reflexivity.
  - vm_compute. reflexivity.
  - vm_compute. reflexivity.
  - vm_compute. reflexivity.
  - apply fails_no_match with (devices := [Sample.device "Back door" LOCK_STATE]).
    + reflexivity.
    + reflexivity.
    + constructor; [| constructor]. split.
      * simpl. discriminate.
      * exists LOCK_STATE, []. reflexivity.
Defined.

(** The history yields the locked state, the snapshot says unlocked: the
    cycle ends unlocked. *)
Lemma status_snapshot_overrides_history_witness :
  let net := Sample.cycle [Sample.door_lock_event "1807" 7]
               (Sample.status_of "OK!" [Sample.device "Front door" UNLOCK_STATE]) in
  fst (get_state_history net Sample.start) = Ok [LOCK_STATE] /\
  exists s3,
    update net Sample.start = (Ok tt, s3) /\
    _state (self s3) = Some UNLOCK_STATE.
Proof.
  cbv zeta. split; [vm_compute; reflexivity |].
  apply (status_snapshot_overrides_history
           (Sample.cycle [Sample.door_lock_event "1807" 7]
              (Sample.status_of "OK!" [Sample.device "Front door" UNLOCK_STATE]))
           Sample.start
           (Sample.after_history
              (Sample.cycle [Sample.door_lock_event "1807" 7]
                 (Sample.status_of "OK!" [Sample.device "Front door" UNLOCK_STATE])))
           (Sample.after_loop
              (Sample.cycle [Sample.door_lock_event "1807" 7]
                 (Sample.status_of "OK!" [Sample.device "Front door" UNLOCK_STATE])))
           (Sample.after_validation
              (Sample.cycle [Sample.door_lock_event "1807" 7]
                 (Sample.status_of "OK!" [Sample.device "Front door" UNLOCK_STATE])))
           [LOCK_STATE] "token-1" UNLOCK_STATE).
  - vm_compute. reflexivity.
  - vm_compute. reflexivity.
  - vm_compute. reflexivity.
  - vm_compute. reflexivity.
  - apply finds_device
      with (pre := []) (post := [])
           (dev := Sample.device "Front door" UNLOCK_STATE) (rest := []).
    + reflexivity.
    + reflexivity.
    + constructor.
    + reflexivity.
    + reflexivity.
Defined.

(** * Frames and invariants *)

(** ** Relations respected by a computation *)

Section Respects.

Context {S : Type} (R : S -> S -> Prop).

Hypothesis R_refl : forall s, R s s.
Hypothesis R_trans : forall s1 s2 s3, R s1 s2 -> R s2 s3 -> R s1 s3.

Lemma respects_ret {A : Type} (a : A) : respects R (@ret S A a).
Proof. intros s r s' H. inversion H. subst. apply R_refl. Qed.

Lemma respects_raise {A : Type} (e : exn) : respects R (@raise S A e).
Proof. intros s r s' H. inversion H. subst. apply R_refl. Qed.

Lemma respects_gets {A : Type} (f : S -> A) : respects R (gets f).
Proof. intros s r s' H. inversion H. subst. apply R_refl. Qed.

Lemma respects_of_result {A : Type} (x : result A) : respects R (@of_result S A x).
Proof. intros s r s' H. inversion H. subst. apply R_refl. Qed.

Lemma respects_getitem {A : Type} (key : string) (v : option A) :
  respects R (@getitem S A key v).
Proof. destruct v; [apply respects_ret | apply respects_raise]. Qed.

Lemma respects_json_of {A : Type} (body : option A) : respects R (@json_of S A body).
Proof. destruct body; [apply respects_ret | apply respects_raise]. Qed.

Lemma respects_received {B : Type} (r : http B) : respects R (@received S B r).
Proof. destruct r; [apply respects_raise | apply respects_ret]. Qed.

Lemma respects_modify (f : S -> S) : (forall s, R s (f s)) -> respects R (modify f).
Proof. intros Hf s r s' H. inversion H. subst. apply Hf. Qed.

Lemma respects_bind {A B : Type} (c : M S A) (k : A -> M S B) :
  respects R c -> (forall a, respects R (k a)) -> respects R (bind c k).
Proof.
  intros Hc Hk s r s' H. unfold bind in H.
  destruct (c s) as [[a | e] s1] eqn:E.
  - eapply R_trans; [eapply Hc; exact E | eapply Hk; exact H].
  - inversion H. subst. eapply Hc; exact E.
Qed.

End Respects.

(** ** The relations are preorders *)

Lemma keeps_entity_refl (s : Sys) : keeps_entity s s.
Proof. unfold keeps_entity, same_but_session. tauto. Qed.

Lemma keeps_entity_trans (s1 s2 s3 : Sys) :
  keeps_entity s1 s2 -> keeps_entity s2 s3 -> keeps_entity s1 s3.
Proof.
  unfold keeps_entity, same_but_session.
  intros (A & B) (C & D). repeat split; try (etransitivity; [apply C | apply A]).
  etransitivity; eassumption.
Qed.

Lemma keeps_state_refl (s : Sys) : keeps_state s s.
Proof. unfold keeps_state, same_device. tauto. Qed.

Lemma keeps_state_trans (s1 s2 s3 : Sys) :
  keeps_state s1 s2 -> keeps_state s2 s3 -> keeps_state s1 s3.
Proof.
  unfold keeps_state, same_device.
  intros (A & B & C) (D & E & F).
  repeat split; try (etransitivity; [apply D | apply A]); etransitivity; eassumption.
Qed.

Lemma grows_report_ids_refl (s : Sys) : grows_report_ids s s.
Proof. split; [exists []; now rewrite app_nil_r | auto]. Qed.

Lemma grows_report_ids_trans (s1 s2 s3 : Sys) :
  grows_report_ids s1 s2 -> grows_report_ids s2 s3 -> grows_report_ids s1 s3.
Proof.
  intros [[a Ha] Na] [[b Hb] Nb]. split; [| auto].
  exists (a ++ b)%list. now rewrite Hb, Ha, app_assoc.
Qed.

Lemma no_status_request_refl (s : Sys) : no_status_request s s.
Proof. exists []. split; [now rewrite app_nil_r | reflexivity]. Qed.

Lemma no_status_request_trans (s1 s2 s3 : Sys) :
  no_status_request s1 s2 -> no_status_request s2 s3 -> no_status_request s1 s3.
Proof.
  intros (a & Ha & Fa) (b & Hb & Fb). exists (a ++ b)%list. split.
  - now rewrite Hb, Ha, app_assoc.
  - rewrite forallb_app, Fa, Fb. reflexivity.
Qed.

Lemma history_step_refl (s : Sys) : history_step s s.
Proof.
  split; [apply keeps_state_refl |].
  split; [apply grows_report_ids_refl | apply no_status_request_refl].
Qed.

Lemma history_step_trans (s1 s2 s3 : Sys) :
  history_step s1 s2 -> history_step s2 s3 -> history_step s1 s3.
Proof.
  intros (A & B & C) (D & E & F).
  split; [eapply keeps_state_trans; eassumption |].
  split; [eapply grows_report_ids_trans | eapply no_status_request_trans]; eassumption.
Qed.

Lemma update_step_refl (s : Sys) : update_step s s.
Proof. split; [unfold same_device; tauto | apply grows_report_ids_refl]. Qed.

Lemma update_step_trans (s1 s2 s3 : Sys) :
  update_step s1 s2 -> update_step s2 s3 -> update_step s1 s3.
Proof.
  intros (A & B) (C & D). split; [| eapply grows_report_ids_trans; eassumption].
  unfold same_device in *.
  repeat split; etransitivity; try apply C; apply A.
Qed.

(** The token check and the status fetch are steps of the other kinds
    too, but for the requests they send. *)
Lemma keeps_entity_keeps_state (s s' : Sys) : keeps_entity s s' -> keeps_state s s'.
Proof. unfold keeps_entity, keeps_state, same_but_session, same_device. tauto. Qed.

Lemma keeps_entity_grows_report_ids (s s' : Sys) :
  keeps_entity s s' -> grows_report_ids s s'.
Proof.
  intros ((_ & _ & _ & _ & _ & _ & H) & _). split.
  - exists []. now rewrite app_nil_r.
  - now rewrite H.
Qed.

Lemma keeps_entity_update_step (s s' : Sys) : keeps_entity s s' -> update_step s s'.
Proof.
  intros H. split; [apply (keeps_entity_keeps_state _ _ H) |
                    apply (keeps_entity_grows_report_ids _ _ H)].
Qed.

Lemma history_step_update_step (s s' : Sys) : history_step s s' -> update_step s s'.
Proof. intros ((A & _) & B & _). now split. Qed.

(** ** Steps of the program *)

Ltac respects_with leaf refl trans :=
  repeat first
    [ leaf
    | apply (respects_ret _ refl) | apply (respects_raise _ refl)
    | apply (respects_gets _ refl) | apply (respects_of_result _ refl)
    | apply (respects_getitem _ refl) | apply (respects_json_of _ refl)
    | apply (respects_received _ refl)
    | apply (respects_bind _ trans); [ | intro ]
    | match goal with
      | |- respects _ (if ?b then _ else _) => destruct b
      | |- respects _ (match ?x with _ => _ end) => destruct x
      end ].

Ltac respects_steps refl trans := respects_with fail refl trans.

Lemma respects_weaken {S A : Type} (R R' : S -> S -> Prop) (c : M S A) :
  (forall s s', R s s' -> R' s s') -> respects R c -> respects R' c.
Proof. intros Himp Hc s r s' H. apply Himp. eapply Hc. exact H. Qed.

Lemma respects_send {B : Type} (R : World -> World -> Prop) (net : Oracle)
    (reply : Oracle -> nat -> http B) (r : request) :
  (forall w, R w (add_sent r w)) -> respects R (send net reply r).
Proof. intros Hr w x w' H. inversion H. subst. apply Hr. Qed.

Lemma respects_datetime_now (R : World -> World -> Prop) (net : Oracle) :
  (forall w, R w (tick_clock w)) -> respects R (datetime_now net).
Proof. intros Hr w x w' H. inversion H. subst. apply Hr. Qed.

Lemma respects_lift {A : Type} (RW : World -> World -> Prop) (R : Sys -> Sys -> Prop)
    (c : M World A) :
  (forall s w', RW (io s) w' -> R s {| self := self s; io := w' |}) ->
  respects RW c -> respects R (lift c).
Proof.
  intros Hr Hc s r s' H. unfold lift in H.
  destruct (c (io s)) as [x w'] eqn:E. inversion H. subst.
  apply Hr. eapply Hc. exact E.
Qed.

Lemma keeps_written_refl (w : World) : keeps_written w w.
Proof. reflexivity. Qed.

Lemma keeps_written_trans (w1 w2 w3 : World) :
  keeps_written w1 w2 -> keeps_written w2 w3 -> keeps_written w1 w3.
Proof. unfold keeps_written. intros A B. now rewrite B. Qed.

Lemma sends_no_status_refl (w : World) : sends_no_status w w.
Proof. exists []. split; [now rewrite app_nil_r | reflexivity]. Qed.

Lemma sends_no_status_trans (w1 w2 w3 : World) :
  sends_no_status w1 w2 -> sends_no_status w2 w3 -> sends_no_status w1 w3.
Proof.
  intros (a & Ha & Fa) (b & Hb & Fb). exists (a ++ b)%list. split.
  - now rewrite Hb, Ha, app_assoc.
  - rewrite forallb_app, Fa, Fb. reflexivity.
Qed.

Lemma sends_no_status_same (w w' : World) : sent w' = sent w -> sends_no_status w w'.
Proof. intros H. exists []. split; [now rewrite app_nil_r | reflexivity]. Qed.

Lemma no_status_request_same (s s' : Sys) :
  sent (io s') = sent (io s) -> no_status_request s s'.
Proof. intros H. exists []. split; [now rewrite app_nil_r | reflexivity]. Qed.

Lemma keeps_entity_same (s s' : Sys) :
  self s' = self s -> written (io s') = written (io s) -> keeps_entity s s'.
Proof.
  intros Hs Hw. split; [| exact Hw]. rewrite Hs. unfold same_but_session. tauto.
Qed.

(** [login] hands nothing to the host. *)
Lemma login_keeps_written (net : Oracle) (user pass token : string) :
  respects keeps_written (login net user pass token).
Proof.
  unfold login, log_io.
  respects_steps keeps_written_refl keeps_written_trans;
    first [ apply respects_modify | apply respects_send | apply respects_datetime_now ];
    intros w; reflexivity.
Qed.

(** [login] sends the login request and no other. *)
Lemma login_sends_no_status (net : Oracle) (user pass token : string) :
  respects sends_no_status (login net user pass token).
Proof.
  unfold login, log_io.
  respects_steps sends_no_status_refl sends_no_status_trans;
    first [ apply respects_modify | apply respects_send | apply respects_datetime_now ];
    intros w; try (apply sends_no_status_same; reflexivity).
  exists [PostLogin user pass token]. split; reflexivity.
Qed.

(** [validate_access_token] changes the login data at most. *)
Lemma validate_access_token_keeps_entity (net : Oracle) :
  respects keeps_entity (validate_access_token net).
Proof.
  unfold validate_access_token, log_sys.
  respects_steps keeps_entity_refl keeps_entity_trans.
  - apply (respects_lift keeps_written); [| apply respects_datetime_now; reflexivity].
    intros s w' H. now apply keeps_entity_same.
  - apply respects_modify. intros s. now apply keeps_entity_same.
  - apply (respects_lift keeps_written); [| apply login_keeps_written].
    intros s w' H. now apply keeps_entity_same.
  - apply respects_modify. intros s. split; [| reflexivity].
    unfold same_but_session. simpl. tauto.
Qed.

Lemma validate_access_token_no_status_request (net : Oracle) :
  respects no_status_request (validate_access_token net).
Proof.
  unfold validate_access_token, log_sys.
  respects_steps no_status_request_refl no_status_request_trans.
  - apply (respects_lift sends_no_status);
      [| apply respects_datetime_now; intros w; now apply sends_no_status_same].
    intros s w' H. exact H.
  - apply respects_modify. intros s. now apply no_status_request_same.
  - apply (respects_lift sends_no_status); [| apply login_sends_no_status].
    intros s w' H. exact H.
  - apply respects_modify. intros s. now apply no_status_request_same.
Qed.

Lemma validate_access_token_history_step (net : Oracle) :
  respects history_step (validate_access_token net).
Proof.
  intros s r s' H. split; [| split].
  - apply keeps_entity_keeps_state. eapply validate_access_token_keeps_entity. exact H.
  - apply keeps_entity_grows_report_ids. eapply validate_access_token_keeps_entity. exact H.
  - eapply validate_access_token_no_status_request. exact H.
Qed.

(** The loop of [get_state] changes the log at most. *)
Lemma get_state_loop_keeps_entity (devices : list Device) :
  respects keeps_entity (get_state_loop devices).
Proof.
  induction devices as [| device rest IH]; simpl; unfold log_sys;
    respects_with ltac:(exact IH) keeps_entity_refl keeps_entity_trans;
    apply respects_modify; intros sys; now apply keeps_entity_same.
Qed.

(** [get_state] changes the login data at most: it does not assign the
    state it returns. *)
Lemma get_state_keeps_entity (net : Oracle) : respects keeps_entity (get_state net).
Proof.
  unfold get_state, log_sys.
  respects_with
    ltac:(first [ apply validate_access_token_keeps_entity
                | apply get_state_loop_keeps_entity ])
    keeps_entity_refl keeps_entity_trans;
    try (apply respects_modify; intros sys; now apply keeps_entity_same).
  apply (respects_lift keeps_written); [| apply respects_send; reflexivity].
  intros sys w' H. now apply keeps_entity_same.
Qed.

Lemma history_step_same (s s' : Sys) :
  self s' = self s -> written (io s') = written (io s) ->
  no_status_request s s' -> history_step s s'.
Proof.
  intros Hs Hw Hn. split; [| split; [| exact Hn]].
  - apply keeps_entity_keeps_state. now apply keeps_entity_same.
  - apply keeps_entity_grows_report_ids. now apply keeps_entity_same.
Qed.

Lemma append_report_id_history_step (rid : option scalar) (s : Sys) :
  ~ In rid (report_ids (self s)) ->
  history_step s (on_self (append_report_id rid) s).
Proof.
  intros Hn. split; [| split].
  - unfold keeps_state, same_device. simpl. tauto.
  - split; [now exists [rid] |]. simpl. intros Hd.
    apply NoDup_app.
    + exact Hd.
    + constructor; [intros [] | constructor].
    + intros x Hx [<- | []]. contradiction.
  - now apply no_status_request_same.
Qed.

(** The body of the history loop appends to [report_ids] at most, and only
    an identifier that was not there. *)
Lemma get_state_history_event_history_step (event : Event) (states : list string) :
  respects history_step (get_state_history_event event states).
Proof.
  intros s r s' Hrun.
  destruct (event_cases event states s)
    as [[H _] | (_ & Hn & [H | [(st & _ & H) | (e & H)]])];
    rewrite H in Hrun; inversion Hrun; subst.
  - apply history_step_refl.
  - now apply append_report_id_history_step.
  - apply (history_step_trans _ (on_self (append_report_id (ev_report_id event)) s));
      [now apply append_report_id_history_step |].
    apply history_step_same; try reflexivity. now apply no_status_request_same.
  - now apply append_report_id_history_step.
Qed.

Lemma get_state_history_loop_history_step (events : list Event) :
  forall states, respects history_step (get_state_history_loop events states).
Proof.
  induction events as [| event rest IH]; intros states; simpl.
  - apply respects_ret, history_step_refl.
  - apply respects_bind; [exact history_step_trans | | intros a; apply IH].
    apply get_state_history_event_history_step.
Qed.

Lemma get_state_history_history_step (net : Oracle) :
  respects history_step (get_state_history net).
Proof.
  unfold get_state_history, log_sys.
  respects_with
    ltac:(first [ apply validate_access_token_history_step
                | apply get_state_history_loop_history_step ])
    history_step_refl history_step_trans;
    try (apply respects_modify; intros sys; apply history_step_same;
         try reflexivity; now apply no_status_request_same).
  apply (respects_lift (fun w w' => keeps_written w w' /\ sends_no_status w w')).
  - intros sys w' [Hw Hn]. apply history_step_same; [reflexivity | exact Hw | exact Hn].
  - apply respects_send. intros w. split; [reflexivity |].
    eexists. split; reflexivity.
Qed.

Lemma last_cons_default {A : Type} (l : list A) :
  forall a d, last (a :: l) d = last l a.
Proof.
  induction l as [| b l IH]; intros a d; [reflexivity |].
  change (last (a :: b :: l) d) with (last (b :: l) d).
  now rewrite (IH b d), (IH b a).
Qed.

(** The loop of [update] assigns each state and hands it to the host, in
    order. *)
Lemma update_loop_runs (states : list string) :
  forall s, exists s',
    update_loop states s = (Ok tt, s') /\
    _state (self s') = last (map Some states) (_state (self s)) /\
    written (io s') = (written (io s) ++ map Some states)%list /\
    login_data (self s') = login_data (self s) /\
    report_ids (self s') = report_ids (self s) /\
    same_device (self s) (self s') /\
    sent (io s') = sent (io s).
Proof.
  induction states as [| state rest IH]; intros s.
  - exists s. simpl. rewrite app_nil_r. unfold same_device. tauto.
  - simpl update_loop. unfold bind at 1, modify. unfold bind at 1, async_write_ha_state.
    destruct (IH (on_io (add_written (_state (self (on_self (set_state (Some state)) s))))
                    (on_self (set_state (Some state)) s)))
      as (s' & Hrun & Hst & Hw & Hl & Hr & Hd & Hs).
    exists s'. split; [exact Hrun |]. simpl in *.
    split; [| split; [| split; [| split; [| split]]]]; try assumption.
    + rewrite Hst. symmetry. apply last_cons_default.
    + rewrite Hw, <- app_assoc. reflexivity.
Qed.

Lemma update_loop_update_step (states : list string) :
  respects update_step (update_loop states).
Proof.
  intros s r s' H.
  destruct (update_loop_runs states s) as (s1 & Hrun & _ & _ & _ & Hr & Hd & _).
  rewrite Hrun in H. inversion H. subst. split; [exact Hd |].
  split; [exists []; now rewrite app_nil_r | now rewrite Hr].
Qed.

(** [update] keeps the device and the credentials, and [report_ids] only
    grows, without duplicates. *)
Lemma update_update_step (net : Oracle) : respects update_step (update net).
Proof.
  unfold update.
  respects_with
    ltac:(first [ apply (respects_weaken _ _ _ history_step_update_step),
                        get_state_history_history_step
                | apply update_loop_update_step
                | apply (respects_weaken _ _ _ keeps_entity_update_step),
                        get_state_keeps_entity ])
    update_step_refl update_step_trans.
  apply respects_modify. intros sys. split.
  - unfold same_device. simpl. tauto.
  - split; [exists []; simpl; now rewrite app_nil_r | simpl; auto].
Qed.

(** * Further properties of the session *)

(** X1.  [validate_access_token], whether it returns or raises, changes of
    the entity the login data at most, hands no state to the host and sends
    no status request. *)
Theorem validate_access_token_changes_session_only (net : Oracle) (s : Sys) :
  let s' := snd (validate_access_token net s) in
  same_but_session (self s) (self s') /\
  written (io s') = written (io s) /\
  no_status_request s s'.
Proof.
  cbv zeta. destruct (validate_access_token net s) as [r s'] eqn:E. simpl.
  destruct (validate_access_token_keeps_entity net s r s' E) as [A B].
  split; [exact A | split; [exact B |]].
  exact (validate_access_token_no_status_request net s r s' E).
Qed.

(** X2.  With an expiry in the login data, [validate_access_token] sends
    one login request, carrying the credentials of the entity, when
    [loggedin + expires_in <= now - 1000], and sends nothing otherwise;
    this does not depend on what the login request is answered with. *)
Theorem validate_access_token_login_requests (net : Oracle) (s : Sys) (expires : Z) :
  expires_in (login_data (self s)) = Some expires ->
  sent (io (snd (validate_access_token net s)))
  = if loggedin (login_data (self s)) + expires <=? now net (clock_reads (io s)) - 1000
    then (sent (io s)
          ++ [PostLogin (username (self s)) (password (self s)) (initial_token (self s))])%list
    else sent (io s).
Proof.
  intros He. unfold validate_access_token, bind, lift, datetime_now, gets. simpl.
  rewrite He. simpl.
  destruct (loggedin (login_data (self s)) + expires
            <=? now net (clock_reads (io s)) - 1000); [| reflexivity].
  unfold log_sys, modify, login, bind, log_io, modify, send, datetime_now. simpl.
  destruct (login_reply net (List.length (sent (io s)))) as [| code text [tj |]];
    reflexivity.
Qed.

(** X3.  When the session is replaced, the new login data is the JSON body
    of the answer, whatever its status code, stamped with the clock reading
    taken after the answer; a body without ["access_token"] or
    ["expires_in"] is stored all the same. *)
Theorem validate_access_token_stores_any_json
    (net : Oracle) (s : Sys) (expires code : Z) (text : string) (tj : TokenJson) :
  expires_in (login_data (self s)) = Some expires ->
  loggedin (login_data (self s)) + expires <= now net (clock_reads (io s)) - 1000 ->
  login_reply net (List.length (sent (io s))) = Response code text (Some tj) ->
  fst (validate_access_token net s) = Ok tt /\
  login_data (self (snd (validate_access_token net s)))
  = {| access_token := tj_access_token tj;
       expires_in := tj_expires_in tj;
       loggedin := now net (S (clock_reads (io s))) |}.
Proof.
  intros He Hle Hr.
  rewrite (validate_access_token_refreshes net s expires He code text tj Hle Hr).
  split; reflexivity.
Qed.

(** X4.  When the login request of a refresh gets no answer, or an answer
    that is not JSON, [validate_access_token] raises and the entity is what
    it was: the old login data stays. *)
Theorem validate_access_token_failed_login
    (net : Oracle) (s : Sys) (expires : Z) (x : exn) :
  expires_in (login_data (self s)) = Some expires ->
  loggedin (login_data (self s)) + expires <= now net (clock_reads (io s)) - 1000 ->
  reply_error (login_reply net (List.length (sent (io s)))) = Some x ->
  fst (validate_access_token net s) = Raise x /\
  self (snd (validate_access_token net s)) = self s.
Proof.
  intros He Hle Hr.
  unfold validate_access_token, bind, lift, datetime_now, gets. simpl.
  rewrite He. simpl.
  destruct (Z.leb_spec (loggedin (login_data (self s)) + expires)
              (now net (clock_reads (io s)) - 1000)); [| lia].
  unfold log_sys, modify, login, bind, log_io, modify, send, datetime_now. simpl.
  destruct (login_reply net (List.length (sent (io s)))) as [| code text [tj |]];
    simpl in Hr; inversion Hr; subst; split; reflexivity.
Qed.

(** X5.  Login data without ["expires_in"] stops the entity for good:
    [validate_access_token], [get_state], [get_state_history] and [update]
    all raise [KeyError] after the clock reading alone; no request is sent
    and the entity, so also the login data, is what it was. *)
Theorem missing_expiry_blocks_entity (net : Oracle) (s : Sys) :
  expires_in (login_data (self s)) = None ->
  validate_access_token net s
  = (Raise (KeyError (Some "expires_in")), on_io tick_clock s) /\
  get_state net s = (Raise (KeyError (Some "expires_in")), on_io tick_clock s) /\
  get_state_history net s
  = (Raise (KeyError (Some "expires_in")), on_io tick_clock s) /\
  update net s = (Raise (KeyError (Some "expires_in")), on_io tick_clock s).
Proof.
  intros He.
  assert (Hv : validate_access_token net s
               = (Raise (KeyError (Some "expires_in")), on_io tick_clock s)).
  { unfold validate_access_token, bind, lift, datetime_now, gets. simpl.
    rewrite He. reflexivity. }
  assert (Hh : get_state_history net s
               = (Raise (KeyError (Some "expires_in")), on_io tick_clock s)).
  { unfold get_state_history. now rewrite (bind_raise _ _ _ _ _ Hv). }
  split; [exact Hv |]. split.
  - unfold get_state. now rewrite (bind_raise _ _ _ _ _ Hv).
  - split; [exact Hh |].
    unfold update. now rewrite (bind_raise _ _ _ _ _ Hh).
Qed.

(** [login] does not look at the status code: any answer with a JSON body
    makes it return login data, after one request, one clock reading and
    two log records. *)
Lemma login_accepts_any_status (net : Oracle) (user pass token : string) (w : World)
    (code : Z) (text : string) (tj : TokenJson) :
  login_reply net (List.length (sent w)) = Response code text (Some tj) ->
  login net user pass token w
  = (Ok {| access_token := tj_access_token tj;
           expires_in := tj_expires_in tj;
           loggedin := now net (clock_reads w) |},
     {| clock_reads := S (clock_reads w);
        sent := sent w ++ [PostLogin user pass token];
        log := log w ++ [InfoTryingLogin; InfoLoggedIn];
        written := written w |}).
Proof.
  intros Hr. unfold login, bind, log_io, modify, send, datetime_now. simpl.
  rewrite Hr. simpl. unfold add_log, tick_clock, add_sent. simpl.
  repeat rewrite <- app_assoc. reflexivity.
Qed.

(** * Further properties of the status fetch *)

(** A 200 answer with the marker "OK!" and a device list: the loop
    decides. *)
Lemma get_state_ok (net : Oracle) (s s1 : Sys) (token text : string)
    (data : StateJson) (devices : list Device) :
  validate_access_token net s = (Ok tt, s1) ->
  access_token (login_data (self s1)) = Some token ->
  state_reply net (List.length (sent (io s1))) = Response 200 text (Some data) ->
  sj_message data = Some "OK!" ->
  sj_data data = Some (Some devices) ->
  get_state net s = get_state_loop devices (on_io (add_sent (GetState token)) s1).
Proof.
  intros Hv Ht Hr Hm Hd. unfold get_state.
  rewrite (bind_ok _ _ _ _ _ Hv).
  unfold bind at 1. unfold gets. rewrite Ht.
  unfold getitem, bind at 1, ret. unfold bind at 1, lift, send. cbn [io self].
  rewrite Hr. unfold bind at 1, received, ret. cbv beta iota.
  change (200 =? 200) with true. cbv iota.
  unfold bind at 1, json_of, ret. unfold bind at 1. rewrite Hm.
  change (String.eqb "OK!" "OK!") with true. cbv iota.
  unfold bind at 1. rewrite Hd. unfold bind at 1. reflexivity.
Qed.

(** The loop of [get_state] passes over the entries of other devices. *)
Lemma get_state_loop_skips (pre rest : list Device) (s : Sys) :
  Forall (other_device (_name (self s))) pre ->
  get_state_loop (pre ++ rest) s = get_state_loop rest s.
Proof.
  induction 1 as [| d pre' [Hn (st & tl & Ho)] _ IH]; [reflexivity |].
  simpl. rewrite Ho. unfold bind at 1, ret. unfold bind at 1, gets.
  destruct (option_eqb String.eqb (dev_name d) (_name (self s))) eqn:E.
  - apply name_eqb_eq in E. contradiction.
  - exact IH.
Qed.

(** X6.  [get_state], whether it returns or raises, does not assign the
    lock state: of the entity it changes the login data at most, and it
    hands nothing to the host. *)
Theorem get_state_changes_session_only (net : Oracle) (s : Sys) :
  let s' := snd (get_state net s) in
  same_but_session (self s) (self s') /\ written (io s') = written (io s).
Proof.
  cbv zeta. destruct (get_state net s) as [r s'] eqn:E. simpl.
  exact (get_state_keeps_entity net s r s' E).
Qed.

(** X7.  The loop of [get_state] returns the state of the first entry that
    carries the stored name and looks no further; the state is returned as
    the vendor sent it, and a record is logged exactly when it is neither
    of the two known states. *)
Theorem get_state_loop_first_match (pre post : list Device) (dev : Device)
    (s : Sys) (state : string) (rest : list string) :
  Forall (other_device (_name (self s))) pre ->
  dev_name dev = _name (self s) ->
  dev_status_open dev = Some (state :: rest) ->
  get_state_loop (pre ++ dev :: post) s
  = (Ok (Some state),
     if String.eqb state LOCK_STATE || String.eqb state UNLOCK_STATE then s
     else on_io (add_log (InfoSettingState state)) s).
Proof.
  intros Hpre Hn Ho. rewrite (get_state_loop_skips pre (dev :: post) s Hpre).
  simpl. rewrite Ho. unfold bind at 1, ret. unfold bind at 1, gets.
  apply name_eqb_eq in Hn. rewrite Hn.
  destruct (String.eqb state LOCK_STATE); [reflexivity |].
  destruct (String.eqb state UNLOCK_STATE); reflexivity.
Qed.

(** X8.  Line 131 indexes ["status_open"] before line 132 compares the
    name: an entry without a first element there, of whatever device, that
    comes before the entry looked for makes [get_state] raise, [TypeError]
    for an absent list and [IndexError] for an empty one. *)
Theorem get_state_unreadable_device (net : Oracle) (s s1 : Sys) (token text : string)
    (data : StateJson) (pre post : list Device) (bad : Device) :
  validate_access_token net s = (Ok tt, s1) ->
  access_token (login_data (self s1)) = Some token ->
  state_reply net (List.length (sent (io s1))) = Response 200 text (Some data) ->
  sj_message data = Some "OK!" ->
  sj_data data = Some (Some (pre ++ bad :: post)%list) ->
  Forall (other_device (_name (self s1))) pre ->
  reported bad = None ->
  get_state net s
  = (Raise (match dev_status_open bad with
            | None => TypeError
            | Some _ => IndexError
            end),
     on_io (add_sent (GetState token)) s1).
Proof.
  intros Hv Ht Hr Hm Hd Hpre Hbad.
  rewrite (get_state_ok net s s1 token text data _ Hv Ht Hr Hm Hd).
  rewrite (get_state_loop_skips pre (bad :: post)
             (on_io (add_sent (GetState token)) s1) Hpre).
  simpl. unfold reported in Hbad.
  destruct (dev_status_open bad) as [[| st tl] |]; try discriminate; reflexivity.
Qed.

(** * Further properties of the history *)

Lemma is_door_lock_false (event : Event) :
  is_door_lock event = false -> ev_type event <> Some "device_type.door_lock".
Proof.
  unfold is_door_lock. intros H Heq. rewrite Heq, door_lock_type in H. discriminate.
Qed.

(** The loop on two batches in a row. *)
Lemma get_state_history_loop_app (first second : list Event) :
  forall (states : list string) (s : Sys),
  get_state_history_loop (first ++ second) states s
  = bind (get_state_history_loop first states)
         (fun states' => get_state_history_loop second states') s.
Proof.
  induction first as [| event rest IH]; intros states s; [reflexivity |].
  simpl. unfold bind.
  destruct (get_state_history_event event states s) as [[st | e] s1]; [| reflexivity].
  rewrite IH. reflexivity.
Qed.

(** X9.  The history loop reads the door-lock events only: events of other
    device types change neither the states returned nor the system,
    whatever code and report identifier they carry. *)
Theorem get_state_history_loop_door_locks_only (events : list Event) :
  forall (states : list string) (s : Sys),
  get_state_history_loop events states s
  = get_state_history_loop (filter is_door_lock events) states s.
Proof.
  induction events as [| event rest IH]; intros states s; [reflexivity |].
  simpl filter. destruct (is_door_lock event) eqn:E.
  - simpl. unfold bind.
    destruct (get_state_history_event event states s) as [[st | e] s1]; [| reflexivity].
    apply IH.
  - simpl. apply is_door_lock_false in E.
    rewrite (bind_ok _ _ _ _ _ (event_other_type event states s E)). apply IH.
Qed.

(** X10.  [get_state_history], whether it returns or raises, keeps the lock
    state, the device and the credentials, hands nothing to the host and
    sends no status request; [report_ids] keeps its entries, grows at its
    end only, and has no duplicate if it had none. *)
Theorem get_state_history_frame (net : Oracle) (s : Sys) :
  let s' := snd (get_state_history net s) in
  _state (self s') = _state (self s) /\
  same_device (self s) (self s') /\
  written (io s') = written (io s) /\
  no_status_request s s' /\
  (exists added, report_ids (self s') = (report_ids (self s) ++ added)%list) /\
  (NoDup (report_ids (self s)) -> NoDup (report_ids (self s'))).
Proof.
  cbv zeta. destruct (get_state_history net s) as [r s'] eqn:E. simpl.
  destruct (get_state_history_history_step net s r s' E)
    as ((Hd & Hs & Hw) & (Ha & Hn) & Hq).
  split; [exact Hs |]. split; [exact Hd |]. split; [exact Hw |].
  split; [exact Hq |]. split; [exact Ha | exact Hn].
Qed.

(** X11.  An event whose code is in neither table stops one cycle only.
    When the loop has raised at such an event, after the events before it,
    the identifier is on [report_ids]: the loop run again on the same batch
    passes over the events before it and over the event itself, and goes on
    with the events after it. *)
Theorem unrecognized_event_skipped_next_cycle
    (pre post : list Event) (event : Event) (states out : list string)
    (s sa sb : Sys) (x : exn) :
  get_state_history_loop pre states s = (Ok out, sa) ->
  get_state_history_event event out sa = (Raise x, sb) ->
  get_state_history_loop (pre ++ event :: post) states s = (Raise x, sb) /\
  forall again,
    get_state_history_loop (pre ++ event :: post) again sb
    = get_state_history_loop post again sb.
Proof.
  intros Hpre Hev. split.
  - rewrite get_state_history_loop_app, (bind_ok _ _ _ _ _ Hpre).
    now apply loop_stops_at_raise.
  - intros again.
    assert (Hseen : forall e, In e pre -> ev_type e = Some "device_type.door_lock" ->
                              In (ev_report_id e) (report_ids (self sb))).
    { intros e Hin Ht. eapply event_keeps_seen; [exact Hev |].
      eapply loop_marks_seen; eassumption. }
    rewrite get_state_history_loop_app.
    rewrite (bind_ok _ _ _ _ _ (loop_all_seen pre again sb Hseen)).
    simpl.
    assert (Hskip : get_state_history_event event again sb = (Ok again, sb)).
    { destruct (event_cases event out sa)
        as [[H _] | (Ht & _ & _)]; [rewrite H in Hev; discriminate |].
      apply event_seen. eapply event_marks_seen; eassumption. }
    now rewrite (bind_ok _ _ _ _ _ Hskip).
Qed.

(** X12.  Every state the loop adds to its list goes with a report
    identifier newly put on [report_ids]: the list grows by no more than
    [report_ids] does. *)
Theorem get_state_history_loop_one_state_per_id (events : list Event) :
  forall (states out : list string) (s s' : Sys),
  get_state_history_loop events states s = (Ok out, s') ->
  (List.length out + List.length (report_ids (self s))
   <= List.length states + List.length (report_ids (self s')))%nat.
Proof.
  induction events as [| event rest IH]; intros states out s s' Hrun.
  - inversion Hrun; subst. lia.
  - simpl in Hrun. apply bind_ok_inv in Hrun. destruct Hrun as (st1 & s1 & H1 & H2).
    apply IH in H2.
    destruct (event_cases event states s)
      as [[H _] | (_ & _ & [H | [(st & _ & H) | (e & H)]])];
      rewrite H in H1; inversion H1; subst; simpl in H2;
      repeat rewrite length_app in H2; simpl in H2; lia.
Qed.

(** * Further properties of the update cycle *)

(** X13.  [update], whether it returns or raises, keeps the name, the
    device identifier and the credentials of the entity; [report_ids] keeps
    its entries, grows at its end only, and has no duplicate if it had
    none. *)
Theorem update_keeps_device (net : Oracle) (s : Sys) :
  let s' := snd (update net s) in
  same_device (self s) (self s') /\
  (exists added, report_ids (self s') = (report_ids (self s) ++ added)%list) /\
  (NoDup (report_ids (self s)) -> NoDup (report_ids (self s'))).
Proof.
  cbv zeta. destruct (update net s) as [r s'] eqn:E. simpl.
  destruct (update_update_step net s r s' E) as (Hd & Ha & Hn).
  split; [exact Hd |]. split; [exact Ha | exact Hn].
Qed.

(** X14.  When the history fetch has returned, what [update] hands to the
    host is the states of the history, one by one and in order, whether the
    status fetch then returns or raises: the state of the snapshot, which
    line 192 assigns, is not handed over by [update]. *)
Theorem update_writes_history_states (net : Oracle) (s s1 : Sys) (states : list string) :
  get_state_history net s = (Ok states, s1) ->
  written (io (snd (update net s))) = (written (io s) ++ map Some states)%list.
Proof.
  intros Hh.
  destruct (get_state_history_history_step net s _ _ Hh) as ((_ & _ & Hw1) & _).
  destruct (update_loop_runs states s1) as (s1' & Hl & _ & Hw2 & _).
  unfold update. rewrite (bind_ok _ _ _ _ _ Hh), (bind_ok _ _ _ _ _ Hl).
  unfold bind.
  destruct (get_state net s1') as [[state | e] s2] eqn:G;
    destruct (get_state_keeps_entity net s1' _ _ G) as [_ Hw3];
    simpl; now rewrite Hw3, Hw2, Hw1.
Qed.

(** X15.  When the history fetch raises, [update] raises the same exception
    at once: the lock state is what it was, nothing is handed to the host
    and the status is not requested. *)
Theorem update_stops_at_history_failure (net : Oracle) (s s1 : Sys) (e : exn) :
  get_state_history net s = (Raise e, s1) ->
  update net s = (Raise e, s1) /\
  _state (self s1) = _state (self s) /\
  written (io s1) = written (io s) /\
  no_status_request s s1.
Proof.
  intros Hh.
  destruct (get_state_history_history_step net s _ _ Hh) as ((_ & Hs & Hw) & _ & Hq).
  split; [| split; [exact Hs | split; [exact Hw | exact Hq]]].
  unfold update. now rewrite (bind_raise _ _ _ _ _ Hh).
Qed.

(** X16.  When the status fetch raises after the history fetch has
    returned, [update] raises the same exception and the lock state is the
    last state of the history, or the prior state when the history gave
    none. *)
Theorem update_stops_at_status_failure
    (net : Oracle) (s s1 s1' s2 : Sys) (states : list string) (e : exn) :
  get_state_history net s = (Ok states, s1) ->
  update_loop states s1 = (Ok tt, s1') ->
  get_state net s1' = (Raise e, s2) ->
  update net s = (Raise e, s2) /\
  _state (self s2) = last (map Some states) (_state (self s)).
Proof.
  intros Hh Hl Hg. split.
  - unfold update.
    now rewrite (bind_ok _ _ _ _ _ Hh), (bind_ok _ _ _ _ _ Hl), (bind_raise _ _ _ _ _ Hg).
  - destruct (get_state_history_history_step net s _ _ Hh) as ((_ & Hs & _) & _).
    destruct (update_loop_runs states s1) as (sl & Hl' & Hst & _).
    rewrite Hl in Hl'. inversion Hl'. subst sl.
    destruct (get_state_keeps_entity net s1' _ _ Hg) as [(Hs2 & _) _].
    now rewrite Hs2, Hst, Hs.
Qed.

(** * Setting the platform up *)

Section SetupFacts.

Variables (net : Oracle) (config : Config) (p : Platform).
Variables (code : Z) (text : string) (tj : TokenJson) (token : string).

Hypothesis login_answer :
  login_reply net (List.length (sent (platform_io p))) = Response code text (Some tj).
Hypothesis login_token : tj_access_token tj = Some token.

(** The login data every entity of this set-up is given. *)
Let ld : LoginData :=
  {| access_token := tj_access_token tj; expires_in := tj_expires_in tj;
     loggedin := now net (clock_reads (platform_io p)) |}.

(** The platform once the login and the status request are done. *)
Let requested : Platform :=
  {| entities := entities p;
     setup_log := setup_log p;
     platform_io :=
       {| clock_reads := S (clock_reads (platform_io p));
          sent := sent (platform_io p)
                  ++ [PostLogin (CONF_USERNAME config) (CONF_PASSWORD config)
                        (CONF_ACCESS_TOKEN config);
                      GetState token];
          log := log (platform_io p) ++ [InfoTryingLogin; InfoLoggedIn];
          written := written (platform_io p) |} |}.

Lemma async_setup_platform_requests :
  async_setup_platform net config p
  = (let r := state_reply net (S (List.length (sent (platform_io p)))) in
     response <- received r ;;
     let '(status_code, text, body) := response in
     if status_code =? 200 then
       modify (add_setup_log InfoSettingUp) ;;
       data <- json_of body ;;
       status <- getitem "message" (sj_message data) ;;
       if String.eqb status "OK!" then
         inner <- match sj_data data with
                  | None => raise AttributeError
                  | Some x => ret x
                  end ;;
         devices <- match inner with
                    | None => raise TypeError
                    | Some ds => ret ds
                    end ;;
         async_setup_platform_loop ld (CONF_USERNAME config) (CONF_PASSWORD config)
           (CONF_ACCESS_TOKEN config) devices
       else
         modify (add_setup_log (InfoSetupStatusNotOK status))
     else
       modify (add_setup_log (ErrorRetrievingInit text))) requested.
Proof.
  unfold async_setup_platform. cbv zeta.
  unfold bind at 1, lift_platform.
  rewrite (login_accepts_any_status net _ _ _ _ code text tj login_answer).
  fold ld. unfold bind at 1. unfold getitem. cbn [access_token ld]. rewrite login_token.
  unfold ret. unfold bind at 1, lift_platform, send. cbn [platform_io sent entities setup_log].
  unfold add_sent. cbn [sent clock_reads log written].
  rewrite length_app. cbn [List.length]. rewrite Nat.add_1_r.
  rewrite <- app_assoc. reflexivity.
Qed.

End SetupFacts.

(** The loop of the set-up on readable entries: one entity each, in
    order. *)
Lemma async_setup_platform_loop_readable (ld : LoginData) (config : Config)
    (devices : list Device) :
  Forall readable devices ->
  forall p, exists p',
    async_setup_platform_loop ld (CONF_USERNAME config) (CONF_PASSWORD config)
      (CONF_ACCESS_TOKEN config) devices p = (Ok tt, p') /\
    entities p' = (entities p ++ map (entity_of ld config) devices)%list /\
    platform_io p' = platform_io p.
Proof.
  induction 1 as [| dev rest (st & tl & Ho) _ IH]; intros p.
  - exists p. simpl. now rewrite app_nil_r.
  - simpl async_setup_platform_loop. rewrite Ho.
    unfold bind at 1, ret. unfold bind at 1, modify. unfold bind at 1.
    destruct (IH (add_entities
                    [Doorman_init (Some st) ld (CONF_USERNAME config)
                       (CONF_PASSWORD config) (dev_name dev) (dev_device_id dev)
                       (CONF_ACCESS_TOKEN config)]
                    (add_setup_log (InfoAddingDevice (dev_name dev) st) p)))
      as (p' & Hrun & He & Hio).
    exists p'. split; [exact Hrun |]. split; [| exact Hio].
    rewrite He. simpl. rewrite <- app_assoc. simpl.
    unfold entity_of, reported. now rewrite Ho.
Qed.

(** The loop of the set-up stops at the first entry it cannot read. *)
Lemma async_setup_platform_loop_unreadable (ld : LoginData) (config : Config)
    (pre post : list Device) (bad : Device) :
  Forall readable pre ->
  reported bad = None ->
  forall p, exists p',
    async_setup_platform_loop ld (CONF_USERNAME config) (CONF_PASSWORD config)
      (CONF_ACCESS_TOKEN config) (pre ++ bad :: post) p
    = (Raise (match dev_status_open bad with
              | None => TypeError
              | Some _ => IndexError
              end), p') /\
    entities p' = (entities p ++ map (entity_of ld config) pre)%list /\
    platform_io p' = platform_io p.
Proof.
  intros Hpre Hbad.
  induction Hpre as [| dev rest (st & tl & Ho) _ IH]; intros p.
  - exists p. simpl. rewrite app_nil_r. split; [| split; reflexivity].
    unfold reported in Hbad.
    destruct (dev_status_open bad) as [[| x xs] |]; try discriminate; reflexivity.
  - simpl async_setup_platform_loop. rewrite Ho.
    unfold bind at 1, ret. unfold bind at 1, modify. unfold bind at 1.
    destruct (IH (add_entities
                    [Doorman_init (Some st) ld (CONF_USERNAME config)
                       (CONF_PASSWORD config) (dev_name dev) (dev_device_id dev)
                       (CONF_ACCESS_TOKEN config)]
                    (add_setup_log (InfoAddingDevice (dev_name dev) st) p)))
      as (p' & Hrun & He & Hio).
    exists p'. split; [exact Hrun |]. split; [| exact Hio].
    rewrite He. simpl. rewrite <- app_assoc. simpl.
    unfold entity_of, reported. now rewrite Ho.
Qed.

(** X17.  When the login is answered with a token and the status request
    with code 200, the marker "OK!" and readable device entries,
    [async_setup_platform] returns and has handed to the host one entity
    per entry, in the order of the answer: each with the state, the name
    and the identifier of its entry, the credentials of the configuration,
    the login data of this one login and no report identifier. *)
Theorem async_setup_platform_adds_entities
    (net : Oracle) (config : Config) (p : Platform)
    (code : Z) (text text' : string) (tj : TokenJson) (token : string)
    (data : StateJson) (devices : list Device) :
  login_reply net (List.length (sent (platform_io p))) = Response code text (Some tj) ->
  tj_access_token tj = Some token ->
  state_reply net (S (List.length (sent (platform_io p))))
  = Response 200 text' (Some data) ->
  sj_message data = Some "OK!" ->
  sj_data data = Some (Some devices) ->
  Forall readable devices ->
  let ld := {| access_token := tj_access_token tj; expires_in := tj_expires_in tj;
               loggedin := now net (clock_reads (platform_io p)) |} in
  fst (async_setup_platform net config p) = Ok tt /\
  entities (snd (async_setup_platform net config p))
  = (entities p ++ map (entity_of ld config) devices)%list /\
  sent (platform_io (snd (async_setup_platform net config p)))
  = (sent (platform_io p)
     ++ [PostLogin (CONF_USERNAME config) (CONF_PASSWORD config)
           (CONF_ACCESS_TOKEN config);
         GetState token])%list.
Proof.
  intros Hl Ht Hs Hm Hd Hr ld.
  assert (Hrun : exists p',
             async_setup_platform net config p = (Ok tt, p') /\
             entities p' = (entities p ++ map (entity_of ld config) devices)%list /\
             sent (platform_io p')
             = (sent (platform_io p)
                ++ [PostLogin (CONF_USERNAME config) (CONF_PASSWORD config)
                      (CONF_ACCESS_TOKEN config);
                    GetState token])%list).
  { rewrite (async_setup_platform_requests net config p code text tj token Hl Ht).
    cbv zeta. rewrite Hs. unfold bind at 1, received, ret. cbv beta iota.
    change (200 =? 200) with true. cbv iota.
    unfold bind at 1, modify. unfold bind at 1, json_of, ret. unfold bind at 1.
    rewrite Hm. unfold getitem, ret.
    change (String.eqb "OK!" "OK!") with true. cbv iota.
    unfold bind at 1. rewrite Hd. unfold bind at 1.
    match goal with
    | |- context [async_setup_platform_loop ?l _ _ _ _ ?q] =>
        destruct (async_setup_platform_loop_readable l config devices Hr q)
          as (p' & Hrun & He & Hio)
    end.
    exists p'. split; [exact Hrun |]. rewrite He, Hio. split; reflexivity. }
  destruct Hrun as (p' & Hrun & He & Hio). rewrite Hrun. simpl. auto.
Qed.

(** X18.  When the status request of the set-up is answered with another
    code than 200, or with a marker other than "OK!", [async_setup_platform]
    returns without raising and hands no entity to the host. *)
Theorem async_setup_platform_adds_nothing
    (net : Oracle) (config : Config) (p : Platform)
    (code : Z) (text : string) (tj : TokenJson) (token : string) :
  login_reply net (List.length (sent (platform_io p))) = Response code text (Some tj) ->
  tj_access_token tj = Some token ->
  (exists code' text' body,
      state_reply net (S (List.length (sent (platform_io p))))
      = Response code' text' body /\ code' <> 200) \/
  (exists text' data status,
      state_reply net (S (List.length (sent (platform_io p))))
      = Response 200 text' (Some data) /\
      sj_message data = Some status /\ status <> "OK!") ->
  fst (async_setup_platform net config p) = Ok tt /\
  entities (snd (async_setup_platform net config p)) = entities p.
Proof.
  intros Hl Ht Hs.
  assert (Hrun : exists p',
             async_setup_platform net config p = (Ok tt, p') /\
             entities p' = entities p).
  { rewrite (async_setup_platform_requests net config p code text tj token Hl Ht).
    cbv zeta.
    destruct Hs as [(code' & text' & body & Hs & Hne)
                   | (text' & data & status & Hs & Hm & Hne)];
      rewrite Hs; unfold bind at 1, received, ret; cbv beta iota.
    - destruct (Z.eqb_spec code' 200) as [-> | _]; [contradiction |].
      eexists. split; reflexivity.
    - change (200 =? 200) with true. cbv iota.
      unfold bind at 1, modify. unfold bind at 1, json_of, ret. unfold bind at 1.
      rewrite Hm. unfold getitem, ret.
      destruct (String.eqb_spec status "OK!") as [-> | _]; [contradiction |].
      eexists. split; reflexivity. }
  destruct Hrun as (p' & Hrun & He). rewrite Hrun. simpl. auto.
Qed.

(** X19.  When a device entry of the answer has no first element under
    ["status_open"], [async_setup_platform] raises at that entry: the
    entities of the entries before it have been handed to the host, those
    of the entries after it have not. *)
Theorem async_setup_platform_stops_at_unreadable
    (net : Oracle) (config : Config) (p : Platform)
    (code : Z) (text text' : string) (tj : TokenJson) (token : string)
    (data : StateJson) (pre post : list Device) (bad : Device) :
  login_reply net (List.length (sent (platform_io p))) = Response code text (Some tj) ->
  tj_access_token tj = Some token ->
  state_reply net (S (List.length (sent (platform_io p))))
  = Response 200 text' (Some data) ->
  sj_message data = Some "OK!" ->
  sj_data data = Some (Some (pre ++ bad :: post)%list) ->
  Forall readable pre ->
  reported bad = None ->
  let ld := {| access_token := tj_access_token tj; expires_in := tj_expires_in tj;
               loggedin := now net (clock_reads (platform_io p)) |} in
  fst (async_setup_platform net config p)
  = Raise (match dev_status_open bad with
           | None => TypeError
           | Some _ => IndexError
           end) /\
  entities (snd (async_setup_platform net config p))
  = (entities p ++ map (entity_of ld config) pre)%list.
Proof.
  intros Hl Ht Hs Hm Hd Hr Hbad ld.
  assert (Hrun : exists p',
             async_setup_platform net config p
             = (Raise (match dev_status_open bad with
                       | None => TypeError
                       | Some _ => IndexError
                       end), p') /\
             entities p' = (entities p ++ map (entity_of ld config) pre)%list).
  { rewrite (async_setup_platform_requests net config p code text tj token Hl Ht).
    cbv zeta. rewrite Hs. unfold bind at 1, received, ret. cbv beta iota.
    change (200 =? 200) with true. cbv iota.
    unfold bind at 1, modify. unfold bind at 1, json_of, ret. unfold bind at 1.
    rewrite Hm. unfold getitem, ret.
    change (String.eqb "OK!" "OK!") with true. cbv iota.
    unfold bind at 1. rewrite Hd. unfold bind at 1.
    match goal with
    | |- context [async_setup_platform_loop ?l _ _ _ _ ?q] =>
        destruct (async_setup_platform_loop_unreadable l config pre post bad Hr Hbad q)
          as (p' & Hrun & He & Hio)
    end.
    exists p'. split; [exact Hrun |]. rewrite He. reflexivity. }
  destruct Hrun as (p' & Hrun & He). rewrite Hrun. simpl. auto.
Qed.

(** * Further runs on the sample data *)

(** A session 1000 seconds past its expiry: one login request. *)
Lemma validate_access_token_login_requests_witness :
  sent (io (snd (validate_access_token
                   (Sample.vendor 4600 (Sample.history_of "OK!" [])
                      (Sample.status_of "OK!" []))
                   Sample.start)))
  = [PostLogin "user" "secret" "bootstrap"].
Proof.
  exact (validate_access_token_login_requests
           (Sample.vendor 4600 (Sample.history_of "OK!" []) (Sample.status_of "OK!" []))
           Sample.start 3600 eq_refl).
Defined.

(** The same session is replaced by the answer of the token endpoint. *)
Lemma validate_access_token_stores_any_json_witness :
  let net := Sample.vendor 4600 (Sample.history_of "OK!" [])
               (Sample.status_of "OK!" []) in
  fst (validate_access_token net Sample.start) = Ok tt /\
  login_data (self (snd (validate_access_token net Sample.start)))
  = Sample.fresh_session 4600.
Proof.
  cbv zeta.
  apply (validate_access_token_stores_any_json
           (Sample.vendor 4600 (Sample.history_of "OK!" []) (Sample.status_of "OK!" []))
           Sample.start 3600 200 ""
           {| tj_access_token := Some "token-2"; tj_expires_in := Some 3600 |}).
  - reflexivity.
  - vm_compute. discriminate.
  - reflexivity.
Defined.

(** The vendor cannot be reached: the old session stays. *)
Lemma validate_access_token_failed_login_witness :
  fst (validate_access_token (Sample.offline 4600) Sample.start)
  = Raise RequestException /\
  self (snd (validate_access_token (Sample.offline 4600) Sample.start))
  = self Sample.start.
Proof.
  apply (validate_access_token_failed_login (Sample.offline 4600) Sample.start 3600).
  - reflexivity.
  - vm_compute. discriminate.
  - reflexivity.
Defined.

(** An entity whose login data has no expiry. *)
Lemma missing_expiry_blocks_entity_witness :
  update (Sample.cycle [] (Sample.status_of "OK!" [])) Sample.without_expiry
  = (Raise (KeyError (Some "expires_in")), on_io tick_clock Sample.without_expiry).
Proof.
  apply (missing_expiry_blocks_entity
           (Sample.cycle [] (Sample.status_of "OK!" [])) Sample.without_expiry).
  reflexivity.
Defined.

(** The entry of another device first, then the entity's own, twice, the
    first one with a state that is neither of the two known ones. *)
Lemma get_state_loop_first_match_witness :
  get_state_loop [Sample.device "Back door" LOCK_STATE;
                  Sample.device "Front door" "device_status.jammed";
                  Sample.device "Front door" LOCK_STATE] Sample.start
  = (Ok (Some "device_status.jammed"),
     on_io (add_log (InfoSettingState "device_status.jammed")) Sample.start).
Proof.
  apply (get_state_loop_first_match
           [Sample.device "Back door" LOCK_STATE]
           [Sample.device "Front door" LOCK_STATE]
           (Sample.device "Front door" "device_status.jammed")
           Sample.start "device_status.jammed" []).
  - constructor; [| constructor]. split.
    + simpl. discriminate.
    + exists LOCK_STATE, []. reflexivity.
  - reflexivity.
  - reflexivity.
Defined.

(** An entry of another device without a state, in front of the entity's
    own. *)
Lemma get_state_unreadable_device_witness :
  let net := Sample.cycle [] (Sample.status_of "OK!"
                                [Sample.unreadable "Back door";
                                 Sample.device "Front door" LOCK_STATE]) in
  fst (get_state net Sample.start) = Raise IndexError.
Proof.
  cbv zeta.
  rewrite (get_state_unreadable_device
             (Sample.cycle [] (Sample.status_of "OK!"
                                 [Sample.unreadable "Back door";
                                  Sample.device "Front door" LOCK_STATE]))
             Sample.start (on_io tick_clock Sample.start) "token-1" ""
             {| sj_message := Some "OK!";
                sj_data := Some (Some [Sample.unreadable "Back door";
                                       Sample.device "Front door" LOCK_STATE]) |}
             [] [Sample.device "Front door" LOCK_STATE] (Sample.unreadable "Back door")).
  - reflexivity.
  - vm_compute. reflexivity.
  - reflexivity.
  - reflexivity.
  - reflexivity.
  - reflexivity.
  - constructor.
  - reflexivity.
Defined.

(** An unlock event, an event with the code "9999" and a lock event: the
    first run raises at the second event, the second run goes on with the
    third. *)
Lemma unrecognized_event_skipped_next_cycle_witness :
  let E1 := Sample.door_lock_event "1801" 1 in
  let E2 := Sample.door_lock_event "9999" 2 in
  let E3 := Sample.door_lock_event "1807" 3 in
  let first_run := get_state_history_loop [E1; E2; E3] [] Sample.start in
  fst first_run = Raise (KeyError (Some "9999")) /\
  fst (get_state_history_loop [E1; E2; E3] [] (snd first_run)) = Ok [LOCK_STATE].
Proof.
  cbv zeta.
  destruct (unrecognized_event_skipped_next_cycle
              [Sample.door_lock_event "1801" 1] [Sample.door_lock_event "1807" 3]
              (Sample.door_lock_event "9999" 2) [] [UNLOCK_STATE]
              Sample.start
              (snd (get_state_history_loop [Sample.door_lock_event "1801" 1] []
                      Sample.start))
              (snd (get_state_history_loop
                      [Sample.door_lock_event "1801" 1;
                       Sample.door_lock_event "9999" 2] [] Sample.start))
              (KeyError (Some "9999")))
    as [Hfirst Hagain].
  - vm_compute. reflexivity.
  - vm_compute. reflexivity.
  - simpl app in Hfirst, Hagain. rewrite Hfirst. split; [reflexivity |].
    simpl snd. rewrite Hagain. vm_compute. reflexivity.
Defined.

(** Two new events and one seen before: two states, two identifiers. *)
Lemma get_state_history_loop_one_state_per_id_witness :
  let batch := [Sample.door_lock_event "1801" 1; Sample.door_lock_event "1807" 5;
                Sample.door_lock_event "1807" 2] in
  let before := on_self (append_report_id (Some (SInt 5))) Sample.start in
  let run := get_state_history_loop batch [] before in
  fst run = Ok [UNLOCK_STATE; LOCK_STATE] /\
  (List.length [UNLOCK_STATE; LOCK_STATE] + List.length (report_ids (self before))
   <= List.length (@nil string) + List.length (report_ids (self (snd run))))%nat.
Proof.
  cbv zeta. split; [vm_compute; reflexivity |].
  apply (get_state_history_loop_one_state_per_id
           [Sample.door_lock_event "1801" 1; Sample.door_lock_event "1807" 5;
            Sample.door_lock_event "1807" 2]
           [] [UNLOCK_STATE; LOCK_STATE]
           (on_self (append_report_id (Some (SInt 5))) Sample.start)).
  vm_compute. reflexivity.
Defined.

(** The history yields the locked state and the snapshot the unlocked one:
    the host is handed the locked state alone. *)
Lemma update_writes_history_states_witness :
  let net := Sample.cycle [Sample.door_lock_event "1807" 7]
               (Sample.status_of "OK!" [Sample.device "Front door" UNLOCK_STATE]) in
  _state (self (snd (update net Sample.start))) = Some UNLOCK_STATE /\
  written (io (snd (update net Sample.start))) = [Some LOCK_STATE].
Proof.
  cbv zeta. split; [vm_compute; reflexivity |].
  apply (update_writes_history_states
           (Sample.cycle [Sample.door_lock_event "1807" 7]
              (Sample.status_of "OK!" [Sample.device "Front door" UNLOCK_STATE]))
           Sample.start
           (Sample.after_history
              (Sample.cycle [Sample.door_lock_event "1807" 7]
                 (Sample.status_of "OK!" [Sample.device "Front door" UNLOCK_STATE])))
           [LOCK_STATE]).
  vm_compute. reflexivity.
Defined.

(** The history endpoint answers 500: the cycle ends there. *)
Lemma update_stops_at_history_failure_witness :
  let net := Sample.vendor 100 (Response 500 "Internal Server Error" None)
               (Sample.status_of "OK!" [Sample.device "Front door" UNLOCK_STATE]) in
  fst (update net Sample.start) = Raise (UnboundLocalError "states") /\
  _state (self (snd (update net Sample.start))) = Some LOCK_STATE.
Proof.
  cbv zeta.
  destruct (update_stops_at_history_failure
              (Sample.vendor 100 (Response 500 "Internal Server Error" None)
                 (Sample.status_of "OK!" [Sample.device "Front door" UNLOCK_STATE]))
              Sample.start
              (Sample.after_history
                 (Sample.vendor 100 (Response 500 "Internal Server Error" None)
                    (Sample.status_of "OK!"
                       [Sample.device "Front door" UNLOCK_STATE])))
              (UnboundLocalError "states"))
    as (Hrun & Hstate & _).
  - vm_compute. reflexivity.
  - rewrite Hrun. split; [reflexivity | exact Hstate].
Defined.

(** The history yields the unlocked state, then the status answer cannot
    be read: the entity is left unlocked. *)
Lemma update_stops_at_status_failure_witness :
  let net := Sample.cycle [Sample.door_lock_event "1801" 7]
               (Sample.status_of "OK!" [Sample.unreadable "Front door"]) in
  fst (update net Sample.start) = Raise IndexError /\
  _state (self (snd (update net Sample.start))) = Some UNLOCK_STATE.
Proof.
  cbv zeta.
  destruct (update_stops_at_status_failure
              (Sample.cycle [Sample.door_lock_event "1801" 7]
                 (Sample.status_of "OK!" [Sample.unreadable "Front door"]))
              Sample.start
              (Sample.after_history
                 (Sample.cycle [Sample.door_lock_event "1801" 7]
                    (Sample.status_of "OK!" [Sample.unreadable "Front door"])))
              (Sample.after_loop
                 (Sample.cycle [Sample.door_lock_event "1801" 7]
                    (Sample.status_of "OK!" [Sample.unreadable "Front door"])))
              (snd (get_state
                      (Sample.cycle [Sample.door_lock_event "1801" 7]
                         (Sample.status_of "OK!" [Sample.unreadable "Front door"]))
                      (Sample.after_loop
                         (Sample.cycle [Sample.door_lock_event "1801" 7]
                            (Sample.status_of "OK!"
                               [Sample.unreadable "Front door"])))))
              [UNLOCK_STATE] IndexError)
    as (Hrun & Hstate).
  - vm_compute. reflexivity.
  - vm_compute. reflexivity.
  - vm_compute. reflexivity.
  - rewrite Hrun. split; [reflexivity | exact Hstate].
Defined.

(** A set-up against a vendor that lists two devices. *)
Lemma async_setup_platform_adds_entities_witness :
  let net := Sample.cycle [] (Sample.status_of "OK!"
                                [Sample.device "Front door" LOCK_STATE;
                                 Sample.device "Back door" UNLOCK_STATE]) in
  fst (async_setup_platform net Sample.config Sample.empty) = Ok tt /\
  entities (snd (async_setup_platform net Sample.config Sample.empty))
  = [Doorman_init (Some LOCK_STATE) (Sample.fresh_session 100) "user" "secret"
       (Some "Front door") (Some "dev-1") "bootstrap";
     Doorman_init (Some UNLOCK_STATE) (Sample.fresh_session 100) "user" "secret"
       (Some "Back door") (Some "dev-1") "bootstrap"] /\
  sent (platform_io (snd (async_setup_platform net Sample.config Sample.empty)))
  = [PostLogin "user" "secret" "bootstrap"; GetState "token-2"].
Proof.
  cbv zeta.
  apply (async_setup_platform_adds_entities
           (Sample.cycle [] (Sample.status_of "OK!"
                               [Sample.device "Front door" LOCK_STATE;
                                Sample.device "Back door" UNLOCK_STATE]))
           Sample.config Sample.empty 200 "" ""
           {| tj_access_token := Some "token-2"; tj_expires_in := Some 3600 |}
           "token-2"
           {| sj_message := Some "OK!";
              sj_data := Some (Some [Sample.device "Front door" LOCK_STATE;
                                     Sample.device "Back door" UNLOCK_STATE]) |}
           [Sample.device "Front door" LOCK_STATE;
            Sample.device "Back door" UNLOCK_STATE]).
  - reflexivity.
  - reflexivity.
  - reflexivity.
  - reflexivity.
  - reflexivity.
  - constructor; [exists LOCK_STATE, []; reflexivity |].
    constructor; [exists UNLOCK_STATE, []; reflexivity | constructor].
Defined.

(** A set-up whose status request is answered with 503. *)
Lemma async_setup_platform_adds_nothing_witness :
  let net := Sample.cycle [] (Response 503 "Service Unavailable" None) in
  fst (async_setup_platform net Sample.config Sample.empty) = Ok tt /\
  entities (snd (async_setup_platform net Sample.config Sample.empty)) = [].
Proof.
  cbv zeta.
  apply (async_setup_platform_adds_nothing
           (Sample.cycle [] (Response 503 "Service Unavailable" None))
           Sample.config Sample.empty 200 ""
           {| tj_access_token := Some "token-2"; tj_expires_in := Some 3600 |}
           "token-2").
  - reflexivity.
  - reflexivity.
  - left. exists 503, "Service Unavailable", None. split; [reflexivity | lia].
Defined.

(** A set-up against a vendor whose second device has no state. *)
Lemma async_setup_platform_stops_at_unreadable_witness :
  let net := Sample.cycle [] (Sample.status_of "OK!"
                                [Sample.device "Front door" LOCK_STATE;
                                 Sample.unreadable "Back door";
                                 Sample.device "Garage" LOCK_STATE]) in
  fst (async_setup_platform net Sample.config Sample.empty) = Raise IndexError /\
  entities (snd (async_setup_platform net Sample.config Sample.empty))
  = [Doorman_init (Some LOCK_STATE) (Sample.fresh_session 100) "user" "secret"
       (Some "Front door") (Some "dev-1") "bootstrap"].
Proof.
  cbv zeta.
  apply (async_setup_platform_stops_at_unreadable
           (Sample.cycle [] (Sample.status_of "OK!"
                               [Sample.device "Front door" LOCK_STATE;
                                Sample.unreadable "Back door";
                                Sample.device "Garage" LOCK_STATE]))
           Sample.config Sample.empty 200 "" ""
           {| tj_access_token := Some "token-2"; tj_expires_in := Some 3600 |}
           "token-2"
           {| sj_message := Some "OK!";
              sj_data := Some (Some [Sample.device "Front door" LOCK_STATE;
                                     Sample.unreadable "Back door";
                                     Sample.device "Garage" LOCK_STATE]) |}
           [Sample.device "Front door" LOCK_STATE]
           [Sample.device "Garage" LOCK_STATE]
           (Sample.unreadable "Back door")).
  - reflexivity.
  - reflexivity.
  - reflexivity.
  - reflexivity.
  - reflexivity.
  - constructor; [exists LOCK_STATE, []; reflexivity | constructor].
  - reflexivity.
Defined.
